(** * MovieLens EDA: the aggregation pipeline of [MovieLens_EDA.py]

    The script loads three tables ([movie], [ratings], [user]) and derives
    from them, through a dataframe library, per-movie rating counts and
    means, a popularity filter, a top-10 ranking, two inner joins and two
    demographic breakdowns.  This file embeds Steps 4-6 of the script
    (source lines 111-241) and proves the properties the specification
    states about them.

    Conventions of the embedding.
    - A table is the list of its rows, in row order; a row is a record
      with one field per column the script reads.  The integer columns are
      fully populated; a cell of the text columns [gender] and [occupation]
      can be missing ([None]), and [value_counts] and [groupby] leave the
      rows with a missing key out, as the library does by default.
    - A Series is the list of its [(index label, value)] pairs, in order.
    - Integer columns (int64) are [Z]; no count in the script can wrap.
    - A mean is the exact rational sum / count ([Q]); the rounding of the
      quotient to a binary float is not modelled.
    - The library's value sort ([sort_values], default kind) is not a
      stable sort and its order among equal values is not documented, so
      it is taken through the interface [SortKernel]: the results hold
      for every sorting function that returns a sorted permutation. *)

From Stdlib Require Import Bool String List ZArith QArith Lia.
From Stdlib Require Import Permutation Sorted.
Import ListNotations.

Local Open Scope Z_scope.

(** ** Index labels *)

(** What the library needs of a column used as a key: hashing (equality)
    for [value_counts], [groupby] and [merge], and an order for the sorted
    group keys of [groupby]. *)
Class Label (K : Type) := {
  label_eqb : K -> K -> bool;
  label_leb : K -> K -> bool;
  label_eqb_spec : forall x y, reflect (x = y) (label_eqb x y)
}.

#[export] Instance Z_Label : Label Z :=
  {| label_eqb := Z.eqb; label_leb := Z.leb; label_eqb_spec := Z.eqb_spec |}.

#[export] Instance string_Label : Label string :=
  {| label_eqb := String.eqb; label_leb := String.leb;
     label_eqb_spec := String.eqb_spec |}.

(** ** The value sort *)

(** [sort_by le l] orders [l] so that [le x y] holds whenever [x] comes
    before [y]; which of two equal elements comes first is up to the
    kernel. *)
Class SortKernel := {
  sort_by : forall A : Type, (A -> A -> bool) -> list A -> list A;
  sort_by_perm : forall (A : Type) (le : A -> A -> bool) (l : list A),
      Permutation l (sort_by A le l);
  sort_by_sorted : forall (A : Type) (le : A -> A -> bool) (l : list A),
      (forall x y, le x y = true \/ le y x = true) ->
      (forall x y z, le x y = true -> le y z = true -> le x z = true) ->
      StronglySorted (fun x y => le x y = true) (sort_by A le l)
}.

Arguments sort_by {_} {A} le l.

(** Insertion sort, the sort of the kernels used to run the examples. *)
Section InsertionSort.
Context {A : Type} (le : A -> A -> bool).

Fixpoint insert_sorted (x : A) (l : list A) : list A :=
  match l with
  | [] => [x]
  | y :: t => if le x y then x :: y :: t else y :: insert_sorted x t
  end.

Fixpoint insertion_sort (l : list A) : list A :=
  match l with
  | [] => []
  | x :: t => insert_sorted x (insertion_sort t)
  end.
End InsertionSort.

(** ** Series and the library operations the script calls *)

Definition Series (K V : Type) : Type := list (K * V).

Definition index {K V : Type} (s : Series K V) : list K := map fst s.
Definition values {K V : Type} (s : Series K V) : list V := map snd s.

Section Columns.
Context {K : Type} `{Label K}.

(** Distinct values of a column in order of first appearance (the order
    of the library's hash table). *)
Fixpoint unique_from (seen : list K) (col : list K) : list K :=
  match col with
  | [] => []
  | x :: t =>
      if existsb (label_eqb x) seen then unique_from seen t
      else x :: unique_from (x :: seen) t
  end.

Definition unique (col : list K) : list K := unique_from [] col.

(** Number of rows of [col] holding [k]. *)
Definition count (k : K) (col : list K) : Z :=
  Z.of_nat (length (filter (label_eqb k) col)).

(** [col.value_counts()]: one entry per distinct value, its number of
    rows, entries sorted by descending count. *)
Definition value_counts `{SortKernel} (col : list K) : Series K Z :=
  sort_by (fun a b => snd b <=? snd a)
          (map (fun k => (k, count k col)) (unique col)).

(** Group keys of [groupby]: the distinct keys, sorted ascending. *)
Definition group_keys (col : list K) : list K :=
  insertion_sort label_leb (unique col).

(** The entries of [s] that carry the label [k], in order. *)
Definition loc_label {V : Type} (s : Series K V) (k : K) : Series K V :=
  filter (fun e => label_eqb (fst e) k) s.
End Columns.

(** [col.dropna()]: the values of a column that are not missing. *)
Definition dropna {K : Type} (col : list (option K)) : list K :=
  flat_map (fun x => match x with Some k => [k] | None => [] end) col.

(** The rows whose key is not missing, each with its key: the rows
    [groupby] forms its groups from. *)
Definition keyed {R K : Type} (key : R -> option K) (rows : list R)
    : list (K * R) :=
  flat_map (fun r => match key r with Some k => [(k, r)] | None => [] end)
           rows.

(** Sum of an integer column. *)
Definition total (l : list Z) : Z := fold_right Z.add 0 l.

(** [mean()] of an integer column: sum / count.  The groups of [groupby]
    are never empty (see [group_nonempty]). *)
Definition mean (l : list Z) : Q :=
  (inject_Z (total l) / inject_Z (Z.of_nat (length l)))%Q.

(** [min()] and [max()] of an integer column; [None] on an empty column. *)
Definition col_min (l : list Z) : option Z :=
  match l with
  | [] => None
  | x :: t => Some (fold_left Z.min t x)
  end.

Definition col_max (l : list Z) : option Z :=
  match l with
  | [] => None
  | x :: t => Some (fold_left Z.max t x)
  end.

(** [rows.groupby(key)[val]]: the values of the rows of one group, in row
    order. *)
Definition group {R K : Type} `{Label K} (key : R -> K) (val : R -> Z)
    (rows : list R) (k : K) : list Z :=
  map val (filter (fun r => label_eqb (key r) k) rows).

(** [rows.groupby(key)[val].mean()]. *)
Definition groupby_mean {R K : Type} `{Label K} (key : R -> K) (val : R -> Z)
    (rows : list R) : Series K Q :=
  map (fun k => (k, mean (group key val rows k))) (group_keys (map key rows)).

(** [s[s >= t]] on a Series of integers. *)
Definition mask_ge {K : Type} (t : Z) (s : Series K Z) : Series K Z :=
  filter (fun e => t <=? snd e) s.

(** [s.sort_values(ascending=False)] on a Series of means. *)
Definition sort_values_desc {K : Type} `{SortKernel} (s : Series K Q)
    : Series K Q :=
  sort_by (fun a b => Qle_bool (snd b) (snd a)) s.

(** [s.head(n)]. *)
Definition head {A : Type} (n : nat) (l : list A) : list A := firstn n l.

(** [left.merge(right, on=key)], the default inner join: for each row of
    [left] in order, one output row per row of [right] with the same key;
    a row of either side without a partner contributes nothing. *)
Definition merge {L R K : Type} `{Label K} (lkey : L -> K) (rkey : R -> K)
    (left : list L) (right : list R) : list (L * R) :=
  flat_map (fun l => map (fun r => (l, r))
                         (filter (fun r => label_eqb (rkey r) (lkey l)) right))
           left.

(** Labels of [labels] that the index of [s] does not hold. *)
Definition missing_labels {K V : Type} `{Label K} (s : Series K V)
    (labels : list K) : list K :=
  filter (fun k => negb (existsb (label_eqb k) (index s))) labels.

(** [s[labels]]: every label must be in the index, otherwise the lookup
    raises [KeyError] with the missing labels ([inl]); the result lists,
    label by label, the entries that carry it. *)
Definition getitem_labels {K V : Type} `{Label K} (s : Series K V)
    (labels : list K) : list K + Series K V :=
  match missing_labels s labels with
  | [] => inr (flat_map (loc_label s) labels)
  | missing => inl missing
  end.

(** ** The three base tables *)

Module Rating.
Record row := { user_id : Z; movie_id : Z; rating : Z }.
End Rating.

Module User.
Record row := {
  user_id : Z;
  age : Z;
  gender : option string;
  occupation : option string
}.
End User.

Module Movie.
Record row := { movie_id : Z; movie_title : string; release_date : string }.
End Movie.

(** ** The script: one definition per assigned variable *)

(** The module-level names of the script. *)
Module Var.
Inductive t :=
| movie | ratings | user
| ratings_per_movie | avg_rating_per_movie | top_10_highest_rated
| filtered_movies | filtered_avg_ratings | top_10_movies
| movie_titles | top_10_movies_df
| ratings_users | avg_rating_by_gender | ratings_by_occupation.

Definition eq_dec (x y : t) : {x = y} + {x <> y}.
Proof. decide equality. Defined.

Definition eqb (x y : t) : bool := if eq_dec x y then true else false.
End Var.

Inductive Error :=
| NameError (x : Var.t)
| TypeError (x : Var.t)
| KeyError (missing : list Z)
| PlotError.

Definition raise_missing {A : Type} (r : list Z + A) : Error + A :=
  match r with
  | inl missing => inl (KeyError missing)
  | inr a => inr a
  end.

Section Script.
Context `{SortKernel}.

(** Line 113. *)
Definition ratings_per_movie (ratings : list Rating.row) : Series Z Z :=
  value_counts (map Rating.movie_id ratings).

(** Line 124. *)
Definition avg_rating_per_movie (ratings : list Rating.row) : Series Z Q :=
  groupby_mean Rating.movie_id Rating.rating ratings.

(** Line 128. *)
Definition top_10_highest_rated (ratings : list Rating.row) : Series Z Q :=
  head 10 (sort_values_desc (avg_rating_per_movie ratings)).

(** Line 136, with the literal 50 as the parameter [t]. *)
Definition filtered_movies_at (t : Z) (ratings : list Rating.row)
    : Series Z Z :=
  mask_ge t (ratings_per_movie ratings).

Definition filtered_movies : list Rating.row -> Series Z Z :=
  filtered_movies_at 50.

(** Line 141. *)
Definition filtered_avg_ratings_at (t : Z) (ratings : list Rating.row)
    : Error + Series Z Q :=
  raise_missing (getitem_labels (avg_rating_per_movie ratings)
                                (index (filtered_movies_at t ratings))).

Definition filtered_avg_ratings : list Rating.row -> Error + Series Z Q :=
  filtered_avg_ratings_at 50.

(** Line 146, on the Series line 141 produced. *)
Definition top_10_of (filtered : Series Z Q) : Series Z Q :=
  head 10 (sort_values_desc filtered).

Definition top_10_movies (ratings : list Rating.row) : Error + Series Z Q :=
  match filtered_avg_ratings ratings with
  | inl e => inl e
  | inr filtered => inr (top_10_of filtered)
  end.

(** Line 155: the projection on two columns. *)
Definition movie_titles (movie : list Movie.row) : list (Z * string) :=
  map (fun m => (Movie.movie_id m, Movie.movie_title m)) movie.

(** Lines 159-160.  [reset_index] turns the Series into the frame of its
    [(movie id, rating)] rows; a row of the merged frame is the pair of
    the two rows it was made of. *)
Definition reset_index {K V : Type} (s : Series K V) : list (K * V) := s.

Definition top_10_movies_df_of (top : Series Z Q) (movie : list Movie.row)
    : list ((Z * Q) * (Z * string)) :=
  merge fst fst (reset_index top) (movie_titles movie).

Definition top_10_movies_df (ratings : list Rating.row)
    (movie : list Movie.row) : Error + list ((Z * Q) * (Z * string)) :=
  match top_10_movies ratings with
  | inl e => inl e
  | inr top => inr (top_10_movies_df_of top movie)
  end.

(** Line 164. *)
Definition title_and_rating (df : list ((Z * Q) * (Z * string)))
    : list (string * Q) :=
  map (fun r => (snd (snd r), snd (fst r))) df.

(** Line 211. *)
Definition ratings_users (ratings : list Rating.row) (user : list User.row)
    : list (Rating.row * User.row) :=
  merge Rating.user_id User.user_id ratings user.

(** Line 214. *)
Definition avg_rating_by_gender (ratings : list Rating.row)
    (user : list User.row) : Series string Q :=
  groupby_mean fst (fun kr => Rating.rating (fst (snd kr)))
               (keyed (fun ru => User.gender (snd ru))
                      (ratings_users ratings user)).

(** Line 232. *)
Definition ratings_by_occupation (ratings : list Rating.row)
    (user : list User.row) : Series string Z :=
  value_counts (dropna (map (fun ru => User.occupation (snd ru))
                            (ratings_users ratings user))).
End Script.

(** ** The script as a sequence of notebook cells over a store *)

(** What a module-level name can be bound to. *)
Inductive value :=
| VMovie (t : list Movie.row)
| VRatings (t : list Rating.row)
| VUser (t : list User.row)
| VCounts (s : Series Z Z)
| VMeans (s : Series Z Q)
| VTitles (t : list (Z * string))
| VRanked (t : list ((Z * Q) * (Z * string)))
| VTitleRating (t : list (string * Q))
| VJoined (t : list (Rating.row * User.row))
| VGenderMeans (s : Series string Q)
| VOccupations (s : Series string Z).

(** What reaches the console and the display. *)
Inductive Shown :=
| Print (v : value)
| Hist (data : list Z) (bins : Z)
| Bar (v : value).

Record State := {
  store : Var.t -> option value;
  shown : list Shown
}.

Definition Cell (A : Type) : Type := State -> Error + (A * State).

Definition ret {A : Type} (a : A) : Cell A := fun st => inr (a, st).

Definition bind {A B : Type} (c : Cell A) (k : A -> Cell B) : Cell B :=
  fun st =>
    match c st with
    | inl e => inl e
    | inr (a, st') => k a st'
    end.

Definition raise {A : Type} (e : Error) : Cell A := fun _ => inl e.

Declare Scope cell_scope.
Delimit Scope cell_scope with cell.
Notation "x <- c ;; k" := (bind c (fun x => k))
  (at level 61, c at next level, right associativity) : cell_scope.
Notation "c ;; k" := (bind c (fun _ => k))
  (at level 61, right associativity) : cell_scope.
Local Open Scope cell_scope.

Definition read (x : Var.t) : Cell value :=
  fun st =>
    match store st x with
    | Some v => inr (v, st)
    | None => inl (NameError x)
    end.

(** [x = v]: binds the name, leaves every other name alone. *)
Definition assign (x : Var.t) (v : value) : Cell unit :=
  fun st =>
    inr (tt, {| store := fun y => if Var.eqb y x then Some v else store st y;
                shown := shown st |}).

Definition show (s : Shown) : Cell unit :=
  fun st => inr (tt, {| store := store st; shown := shown st ++ [s] |}).

(** [s.plot(kind='bar')]: draws the Series; an empty Series has nothing
    to draw and the call raises. *)
Definition bar_plot {K V : Type} (mk : Series K V -> value) (s : Series K V)
    : Cell unit :=
  match s with
  | [] => raise PlotError
  | _ :: _ => show (Bar (mk s))
  end.

Definition lift {A : Type} (r : Error + A) : Cell A :=
  match r with
  | inl e => raise e
  | inr a => ret a
  end.

Definition read_movie (x : Var.t) : Cell (list Movie.row) :=
  v <- read x ;; match v with VMovie t => ret t | _ => raise (TypeError x) end.
Definition read_ratings (x : Var.t) : Cell (list Rating.row) :=
  v <- read x ;; match v with VRatings t => ret t | _ => raise (TypeError x) end.
Definition read_user (x : Var.t) : Cell (list User.row) :=
  v <- read x ;; match v with VUser t => ret t | _ => raise (TypeError x) end.
Definition read_counts (x : Var.t) : Cell (Series Z Z) :=
  v <- read x ;; match v with VCounts s => ret s | _ => raise (TypeError x) end.
Definition read_means (x : Var.t) : Cell (Series Z Q) :=
  v <- read x ;; match v with VMeans s => ret s | _ => raise (TypeError x) end.
Definition read_titles (x : Var.t) : Cell (list (Z * string)) :=
  v <- read x ;; match v with VTitles t => ret t | _ => raise (TypeError x) end.
Definition read_ranked (x : Var.t) : Cell (list ((Z * Q) * (Z * string))) :=
  v <- read x ;; match v with VRanked t => ret t | _ => raise (TypeError x) end.
Definition read_joined (x : Var.t) : Cell (list (Rating.row * User.row)) :=
  v <- read x ;; match v with VJoined t => ret t | _ => raise (TypeError x) end.
Definition read_gender_means (x : Var.t) : Cell (Series string Q) :=
  v <- read x ;;
  match v with VGenderMeans s => ret s | _ => raise (TypeError x) end.
Definition read_occupations (x : Var.t) : Cell (Series string Z) :=
  v <- read x ;;
  match v with VOccupations s => ret s | _ => raise (TypeError x) end.

Section Notebook.
Context `{SortKernel}.

(** Lines 111-114. *)
Definition cell_popularity : Cell unit :=
  r <- read_ratings Var.ratings ;;
  assign Var.ratings_per_movie
         (VCounts (value_counts (map Rating.movie_id r))) ;;
  c <- read_counts Var.ratings_per_movie ;;
  show (Print (VCounts (head 10 c))).

(** Lines 122-129. *)
Definition cell_average : Cell unit :=
  r <- read_ratings Var.ratings ;;
  assign Var.avg_rating_per_movie
         (VMeans (groupby_mean Rating.movie_id Rating.rating r)) ;;
  a <- read_means Var.avg_rating_per_movie ;;
  show (Print (VMeans (head 5 a))) ;;
  a <- read_means Var.avg_rating_per_movie ;;
  assign Var.top_10_highest_rated (VMeans (head 10 (sort_values_desc a))) ;;
  t <- read_means Var.top_10_highest_rated ;;
  show (Print (VMeans t)).

(** Lines 134-142. *)
Definition cell_filter : Cell unit :=
  c <- read_counts Var.ratings_per_movie ;;
  assign Var.filtered_movies (VCounts (mask_ge 50 c)) ;;
  f <- read_counts Var.filtered_movies ;;
  show (Print (VCounts f)) ;;
  a <- read_means Var.avg_rating_per_movie ;;
  f <- read_counts Var.filtered_movies ;;
  sel <- lift (raise_missing (getitem_labels a (index f))) ;;
  assign Var.filtered_avg_ratings (VMeans sel) ;;
  x <- read_means Var.filtered_avg_ratings ;;
  show (Print (VMeans x)).

(** Lines 144-147. *)
Definition cell_top_10 : Cell unit :=
  x <- read_means Var.filtered_avg_ratings ;;
  assign Var.top_10_movies (VMeans (head 10 (sort_values_desc x))) ;;
  t <- read_means Var.top_10_movies ;;
  show (Print (VMeans t)).

(** Lines 152-156. *)
Definition cell_titles : Cell unit :=
  m <- read_movie Var.movie ;;
  assign Var.movie_titles
         (VTitles (map (fun r => (Movie.movie_id r, Movie.movie_title r)) m)) ;;
  t <- read_titles Var.movie_titles ;;
  show (Print (VTitles (head 5 t))).

(** Lines 158-161. *)
Definition cell_join_titles : Cell unit :=
  t <- read_means Var.top_10_movies ;;
  assign Var.top_10_movies_df (VMeans (reset_index t)) ;;
  d <- read_means Var.top_10_movies_df ;;
  m <- read_titles Var.movie_titles ;;
  assign Var.top_10_movies_df (VRanked (merge fst fst d m)) ;;
  d <- read_ranked Var.top_10_movies_df ;;
  show (Print (VRanked d)).

(** Lines 163-164. *)
Definition cell_title_rating : Cell unit :=
  d <- read_ranked Var.top_10_movies_df ;;
  show (Print (VTitleRating (title_and_rating d))).

(** Lines 177-184. *)
Definition cell_hist_ratings : Cell unit :=
  c <- read_counts Var.ratings_per_movie ;;
  show (Hist (values c) 50).

(** Lines 193-200. *)
Definition cell_hist_age : Cell unit :=
  u <- read_user Var.user ;;
  show (Hist (map User.age u) 10).

(** Lines 209-215. *)
Definition cell_gender : Cell unit :=
  r <- read_ratings Var.ratings ;;
  u <- read_user Var.user ;;
  assign Var.ratings_users
         (VJoined (merge Rating.user_id User.user_id r u)) ;;
  j <- read_joined Var.ratings_users ;;
  assign Var.avg_rating_by_gender
         (VGenderMeans
            (groupby_mean fst (fun kr => Rating.rating (fst (snd kr)))
                          (keyed (fun ru => User.gender (snd ru)) j))) ;;
  g <- read_gender_means Var.avg_rating_by_gender ;;
  show (Print (VGenderMeans g)).

(** Lines 217-222. *)
Definition cell_gender_plot : Cell unit :=
  g <- read_gender_means Var.avg_rating_by_gender ;;
  bar_plot VGenderMeans g.

(** Lines 230-233. *)
Definition cell_occupation : Cell unit :=
  j <- read_joined Var.ratings_users ;;
  assign Var.ratings_by_occupation
         (VOccupations
            (value_counts
               (dropna (map (fun ru => User.occupation (snd ru)) j)))) ;;
  o <- read_occupations Var.ratings_by_occupation ;;
  show (Print (VOccupations (head 10 o))).

(** Lines 235-241. *)
Definition cell_occupation_plot : Cell unit :=
  o <- read_occupations Var.ratings_by_occupation ;;
  bar_plot VOccupations (head 10 o).

(** The cells of Steps 4-6 from line 111 on, top to bottom. *)
Definition cells : list (Cell unit) :=
  [ cell_popularity; cell_average; cell_filter; cell_top_10; cell_titles;
    cell_join_titles; cell_title_rating; cell_hist_ratings; cell_hist_age;
    cell_gender; cell_gender_plot; cell_occupation; cell_occupation_plot ].

Fixpoint run_cells (cs : list (Cell unit)) : Cell unit :=
  match cs with
  | [] => ret tt
  | c :: rest => c ;; run_cells rest
  end.

Definition script : Cell unit := run_cells cells.
End Notebook.

(** The store once Step 2 has loaded the three files. *)
Definition loaded (movie : list Movie.row) (ratings : list Rating.row)
    (user : list User.row) : State :=
  {| store := fun x =>
       match x with
       | Var.movie => Some (VMovie movie)
       | Var.ratings => Some (VRatings ratings)
       | Var.user => Some (VUser user)
       | _ => None
       end;
     shown := [] |}.

(** ** Vocabulary of the specification *)

(** Number of ratings of movie [m]. *)
Definition n_ratings (ratings : list Rating.row) (m : Z) : Z :=
  count m (map Rating.movie_id ratings).

(** The ratings of movie [m], in row order. *)
Definition ratings_of (ratings : list Rating.row) (m : Z) : list Z :=
  group Rating.movie_id Rating.rating ratings m.

(** The entries of [ratings_per_movie] that line 136 leaves out. *)
Definition removed_movies_at `{SortKernel} (t : Z)
    (ratings : list Rating.row) : Series Z Z :=
  filter (fun e => negb (t <=? snd e)) (ratings_per_movie ratings).

Definition removed_movies `{SortKernel} : list Rating.row -> Series Z Z :=
  removed_movies_at 50.

(** The movies with at least [t] ratings, counted from the table itself. *)
Definition movies_with_at_least (t : Z) (ratings : list Rating.row) : list Z :=
  filter (fun m => t <=? n_ratings ratings m)
         (unique (map Rating.movie_id ratings)).

(** The fixture of the specification: movie 1 rated 5, 5, 4 and movie 2
    rated 1, by the users [a], [b], [c], [d]. *)
Definition fixture (a b c d : Z) : list Rating.row :=
  [ {| Rating.user_id := a; Rating.movie_id := 1; Rating.rating := 5 |};
    {| Rating.user_id := b; Rating.movie_id := 1; Rating.rating := 5 |};
    {| Rating.user_id := c; Rating.movie_id := 1; Rating.rating := 4 |};
    {| Rating.user_id := d; Rating.movie_id := 2; Rating.rating := 1 |} ].

(** A small data set: movie 7 with 50 ratings of 4, movie 9 with 60
    ratings of 3, movie 8 with two ratings of 5; a movie table without
    movie 9; a user table that knows users 1 and 2 of the raters, and a
    user 70 who rated nothing. *)
Definition rated_by (n : nat) (m r : Z) : list Rating.row :=
  map (fun u => {| Rating.user_id := Z.of_nat u; Rating.movie_id := m;
                   Rating.rating := r |})
      (seq 1 n).

Definition sample_ratings : list Rating.row :=
  rated_by 50 7 4 ++ rated_by 60 9 3 ++ rated_by 2 8 5.

Definition sample_movie : list Movie.row :=
  [ {| Movie.movie_id := 7; Movie.movie_title := "Casablanca (1942)";
       Movie.release_date := "01-Jan-1942" |};
    {| Movie.movie_id := 8; Movie.movie_title := "Heat (1995)";
       Movie.release_date := "01-Jan-1995" |} ]%string.

Definition sample_user : list User.row :=
  [ {| User.user_id := 1; User.age := 24; User.gender := Some "M";
       User.occupation := Some "student" |};
    {| User.user_id := 2; User.age := 31; User.gender := Some "F";
       User.occupation := Some "engineer" |};
    {| User.user_id := 70; User.age := 40; User.gender := Some "F";
       User.occupation := Some "writer" |} ]%string.

(** ** The overview of the ratings table (lines 89-103) *)

(** [col.nunique()]: the number of distinct values of a column. *)
Definition nunique {K : Type} `{Label K} (col : list K) : Z :=
  Z.of_nat (length (unique col)).

(** Line 93: [len(ratings)]. *)
Definition n_total_ratings (ratings : list Rating.row) : Z :=
  Z.of_nat (length ratings).

(** Line 96: [ratings['user id'].nunique()]. *)
Definition n_unique_users (ratings : list Rating.row) : Z :=
  nunique (map Rating.user_id ratings).

(** Line 99: [ratings['movie id'].nunique()]. *)
Definition n_unique_movies (ratings : list Rating.row) : Z :=
  nunique (map Rating.movie_id ratings).

(** Lines 102-103: [ratings['rating'].min()] and [.max()]. *)
Definition min_rating (ratings : list Rating.row) : option Z :=
  col_min (map Rating.rating ratings).

Definition max_rating (ratings : list Rating.row) : option Z :=
  col_max (map Rating.rating ratings).

(** A rating whose user id is in the user table. *)
Definition known_user (user : list User.row) (r : Rating.row) : bool :=
  existsb (label_eqb (Rating.user_id r)) (map User.user_id user).

(** The columns of the joined table the breakdowns read. *)
Definition joined_gender (ru : Rating.row * User.row) : option string :=
  User.gender (snd ru).

Definition joined_occupation (ru : Rating.row * User.row) : option string :=
  User.occupation (snd ru).

(** The joined ratings of the users of gender [g]. *)
Definition ratings_by_gender (ratings : list Rating.row)
    (user : list User.row) (g : string) : list Z :=
  map (fun ru : Rating.row * User.row => Rating.rating (fst ru))
      (filter (fun ru => match joined_gender ru with
                         | Some g' => label_eqb g' g
                         | None => false
                         end)
              (ratings_users ratings user)).

(** The joined rows whose gender, respectively occupation, is there. *)
Definition with_gender (joined : list (Rating.row * User.row))
    : list (Rating.row * User.row) :=
  filter (fun ru => match joined_gender ru with
                    | Some _ => true
                    | None => false
                    end) joined.

Definition with_occupation (joined : list (Rating.row * User.row))
    : list (Rating.row * User.row) :=
  filter (fun ru => match joined_occupation ru with
                    | Some _ => true
                    | None => false
                    end) joined.

(** Four ratings by two users; the second user's gender and occupation
    are missing in the user table. *)
Definition partial_ratings : list Rating.row :=
  [ {| Rating.user_id := 1; Rating.movie_id := 1; Rating.rating := 5 |};
    {| Rating.user_id := 2; Rating.movie_id := 1; Rating.rating := 4 |};
    {| Rating.user_id := 2; Rating.movie_id := 2; Rating.rating := 3 |};
    {| Rating.user_id := 2; Rating.movie_id := 3; Rating.rating := 1 |} ].

Definition partial_user : list User.row :=
  [ {| User.user_id := 1; User.age := 24; User.gender := Some "M";
       User.occupation := Some "student" |};
    {| User.user_id := 2; User.age := 31; User.gender := None;
       User.occupation := None |} ]%string.


(** What the names are bound to once every cell has run, given the Series
    [sel] that line 141 selected. *)
Definition final_bindings `{SortKernel} (movie : list Movie.row)
    (ratings : list Rating.row) (user : list User.row) (sel : Series Z Q)
    (x : Var.t) : option value :=
  match x with
  | Var.movie => Some (VMovie movie)
  | Var.ratings => Some (VRatings ratings)
  | Var.user => Some (VUser user)
  | Var.ratings_per_movie => Some (VCounts (ratings_per_movie ratings))
  | Var.avg_rating_per_movie => Some (VMeans (avg_rating_per_movie ratings))
  | Var.top_10_highest_rated => Some (VMeans (top_10_highest_rated ratings))
  | Var.filtered_movies => Some (VCounts (filtered_movies ratings))
  | Var.filtered_avg_ratings => Some (VMeans sel)
  | Var.top_10_movies => Some (VMeans (top_10_of sel))
  | Var.movie_titles => Some (VTitles (movie_titles movie))
  | Var.top_10_movies_df =>
      Some (VRanked (top_10_movies_df_of (top_10_of sel) movie))
  | Var.ratings_users => Some (VJoined (ratings_users ratings user))
  | Var.avg_rating_by_gender =>
      Some (VGenderMeans (avg_rating_by_gender ratings user))
  | Var.ratings_by_occupation =>
      Some (VOccupations (ratings_by_occupation ratings user))
  end.

(** What the cells of lines 111-241 print and draw, in order. *)
Definition script_output `{SortKernel} (movie : list Movie.row)
    (ratings : list Rating.row) (user : list User.row) (sel : Series Z Q)
    : list Shown :=
  [ Print (VCounts (head 10 (ratings_per_movie ratings)));
    Print (VMeans (head 5 (avg_rating_per_movie ratings)));
    Print (VMeans (top_10_highest_rated ratings));
    Print (VCounts (filtered_movies ratings));
    Print (VMeans sel);
    Print (VMeans (top_10_of sel));
    Print (VTitles (head 5 (movie_titles movie)));
    Print (VRanked (top_10_movies_df_of (top_10_of sel) movie));
    Print (VTitleRating
             (title_and_rating (top_10_movies_df_of (top_10_of sel) movie)));
    Hist (values (ratings_per_movie ratings)) 50;
    Hist (map User.age user) 10;
    Print (VGenderMeans (avg_rating_by_gender ratings user));
    Bar (VGenderMeans (avg_rating_by_gender ratings user));
    Print (VOccupations (head 10 (ratings_by_occupation ratings user)));
    Bar (VOccupations (head 10 (ratings_by_occupation ratings user))) ].

(** A movie table that holds every movie of the sample ratings. *)
Definition sample_movie_full : list Movie.row :=
  sample_movie
  ++ [ {| Movie.movie_id := 9; Movie.movie_title := "Vertigo (1958)";
          Movie.release_date := "01-Jan-1958" |} ]%string.

(** A store with stale bindings: the tables of the sample, and derived
    names left over from other data. *)
Definition stale_store : State :=
  {| store := fun x =>
       match x with
       | Var.movie => Some (VMovie sample_movie)
       | Var.ratings => Some (VRatings sample_ratings)
       | Var.user => Some (VUser sample_user)
       | Var.ratings_per_movie => Some (VCounts [(1, 1)])
       | Var.top_10_movies_df => Some (VMeans [])
       | Var.filtered_avg_ratings => Some (VTitles [])
       | _ => None
       end;
     shown := [Hist [] 3] |}.

(** A store whose counts and means come from different tables. *)
Definition mismatched_store : State :=
  {| store := fun x =>
       match x with
       | Var.ratings_per_movie => Some (VCounts [(7, 50); (8, 2)])
       | Var.avg_rating_per_movie => Some (VMeans [(8, 5 # 1); (9, 3 # 1)])
       | _ => None
       end;
     shown := [] |}.

(** ** The insertion-sort kernel *)

Section InsertionSortFacts.
Context {A : Type} (le : A -> A -> bool).

Lemma insert_sorted_perm (x : A) (l : list A) :
  Permutation (x :: l) (insert_sorted le x l).
Proof.
  induction l as [|y t IH]; simpl; [reflexivity|].
  destruct (le x y); [reflexivity|].
  rewrite perm_swap. now apply perm_skip.
Qed.

Lemma insertion_sort_perm (l : list A) :
  Permutation l (insertion_sort le l).
Proof.
  induction l as [|x t IH]; simpl; [constructor|].
  rewrite <- insert_sorted_perm. now apply perm_skip.
Qed.

Hypothesis le_total : forall x y, le x y = true \/ le y x = true.
Hypothesis le_trans :
  forall x y z, le x y = true -> le y z = true -> le x z = true.

Lemma insert_sorted_sorted (x : A) (l : list A) :
  StronglySorted (fun a b => le a b = true) l ->
  StronglySorted (fun a b => le a b = true) (insert_sorted le x l).
Proof.
  induction 1 as [|y t Ht IH Hy]; simpl.
  - repeat constructor.
  - destruct (le x y) eqn:E.
    + constructor; [now constructor|].
      constructor; [exact E|].
      eapply Forall_impl; [|exact Hy]. intros b Hb. now apply le_trans with y.
    + constructor; [exact IH|].
      eapply Permutation_Forall; [apply insert_sorted_perm|].
      constructor; [|exact Hy].
      destruct (le_total x y) as [F|F]; [congruence|exact F].
Qed.

Lemma insertion_sort_sorted (l : list A) :
  StronglySorted (fun a b => le a b = true) (insertion_sort le l).
Proof.
  induction l as [|x t IH]; simpl; [constructor|].
  now apply insert_sorted_sorted.
Qed.
End InsertionSortFacts.

Definition insertion_kernel : SortKernel :=
  {| sort_by := fun A le l => insertion_sort le l;
     sort_by_perm := fun A le l => insertion_sort_perm le l;
     sort_by_sorted := fun A le l tot tr => insertion_sort_sorted le tot tr l |}.

(** The same sort fed the rows in reverse: a second kernel, which orders
    equal values the other way round. *)
Definition reverse_kernel : SortKernel :=
  {| sort_by := fun A le l => insertion_sort le (rev l);
     sort_by_perm := fun A le l =>
       Permutation_trans (Permutation_rev l) (insertion_sort_perm le (rev l));
     sort_by_sorted := fun A le l tot tr =>
       insertion_sort_sorted le tot tr (rev l) |}.

(** ** Columns: distinct values and counts *)

Section ColumnFacts.
Context {K : Type} `{Label K}.

Lemma label_eqb_eq (x y : K) : label_eqb x y = true <-> x = y.
Proof. destruct (label_eqb_spec x y); split; congruence. Qed.

Lemma label_eqb_refl (x : K) : label_eqb x x = true.
Proof. now apply label_eqb_eq. Qed.

Lemma existsb_label (x : K) (l : list K) :
  existsb (label_eqb x) l = true <-> In x l.
Proof.
  rewrite existsb_exists. split.
  - intros (y & Hy & E). apply label_eqb_eq in E. now subst.
  - intros Hx. exists x. split; [exact Hx|apply label_eqb_refl].
Qed.

Lemma unique_from_In (col seen : list K) (x : K) :
  In x (unique_from seen col) <-> In x col /\ ~ In x seen.
Proof.
  revert seen. induction col as [|y t IH]; intros seen; simpl.
  - tauto.
  - destruct (existsb (label_eqb y) seen) eqn:E.
    + apply existsb_label in E. rewrite IH.
      split; [tauto|]. intros [[->|Hx] Hn]; tauto.
    + assert (Hy : ~ In y seen).
      { intros Hy. apply existsb_label in Hy. congruence. }
      simpl. rewrite IH. simpl.
      split.
      * intros [->|[Hx Hn]]; [tauto|]. split; [tauto|]. intros F. apply Hn. now right.
      * intros [[->|Hx] Hn]; [now left|].
        destruct (label_eqb_spec y x) as [->|Hne]; [now left|].
        right. split; [exact Hx|]. intros [F|F]; [now apply Hne|now apply Hn].
Qed.

Lemma unique_In (col : list K) (x : K) : In x (unique col) <-> In x col.
Proof. unfold unique. rewrite unique_from_In. simpl. tauto. Qed.

Lemma unique_from_NoDup (col seen : list K) : NoDup (unique_from seen col).
Proof.
  revert seen. induction col as [|y t IH]; intros seen; simpl.
  - constructor.
  - destruct (existsb (label_eqb y) seen); [apply IH|].
    constructor; [|apply IH].
    rewrite unique_from_In. simpl. tauto.
Qed.

Lemma unique_NoDup (col : list K) : NoDup (unique col).
Proof. apply unique_from_NoDup. Qed.

Lemma count_cons (k x : K) (col : list K) :
  count k (x :: col) = (if label_eqb k x then 1 else 0) + count k col.
Proof.
  unfold count. simpl. destruct (label_eqb k x); simpl length; lia.
Qed.

Lemma count_nonneg (k : K) (col : list K) : 0 <= count k col.
Proof. unfold count. lia. Qed.

Lemma count_pos (k : K) (col : list K) : 0 < count k col <-> In k col.
Proof.
  induction col as [|x t IH].
  - unfold count. simpl. split; [lia|tauto].
  - rewrite count_cons. simpl. pose proof (count_nonneg k t).
    destruct (label_eqb_spec k x) as [->|Hne].
    + split; [now left|lia].
    + rewrite <- IH. split; [lia|]. intros [E|Hk]; [congruence|lia].
Qed.

(** One key of a duplicate-free key list matches a given value. *)
Lemma total_indicator (x : K) (ks : list K) :
  NoDup ks ->
  total (map (fun k => if label_eqb k x then 1 else 0) ks)
  = if existsb (label_eqb x) ks then 1 else 0.
Proof.
  induction 1 as [|k ks Hk Hnd IH]; simpl; [reflexivity|].
  rewrite IH.
  destruct (label_eqb_spec k x) as [->|Hne].
  - rewrite label_eqb_refl. simpl.
    destruct (existsb (label_eqb x) ks) eqn:E; [|reflexivity].
    apply existsb_label in E. contradiction.
  - destruct (label_eqb_spec x k) as [E|_]; [congruence|]. reflexivity.
Qed.

Lemma total_map_add {A : Type} (f g : A -> Z) (l : list A) :
  total (map (fun a => f a + g a) l) = total (map f l) + total (map g l).
Proof. induction l as [|a t IH]; simpl; [reflexivity|]. rewrite IH. lia. Qed.

(** The counts of the keys of a duplicate-free list that covers the column
    add up to the number of rows. *)
Lemma total_count_cover (ks col : list K) :
  NoDup ks -> incl col ks ->
  total (map (fun k => count k col) ks) = Z.of_nat (length col).
Proof.
  intros Hnd. induction col as [|x t IH]; intros Hin.
  - unfold count. simpl. induction ks as [|k ks IHk]; simpl; [reflexivity|].
    rewrite IHk; [reflexivity|now inversion Hnd|intros ? []].
  - rewrite (map_ext _ (fun k => (if label_eqb k x then 1 else 0) + count k t))
      by (intros; apply count_cons).
    rewrite total_map_add, total_indicator by exact Hnd.
    rewrite IH by (intros y Hy; apply Hin; now right).
    assert (E : existsb (label_eqb x) ks = true).
    { apply existsb_label, Hin. now left. }
    rewrite E. simpl length. lia.
Qed.

Lemma total_count_unique (col : list K) :
  total (map (fun k => count k col) (unique col)) = Z.of_nat (length col).
Proof.
  apply total_count_cover; [apply unique_NoDup|].
  intros x Hx. now apply unique_In.
Qed.
End ColumnFacts.

(** ** Sums, filters and permutations *)

Lemma total_app (l1 l2 : list Z) : total (l1 ++ l2) = total l1 + total l2.
Proof. induction l1 as [|x t IH]; simpl; [reflexivity|]. rewrite IH. lia. Qed.

Lemma total_perm (l1 l2 : list Z) : Permutation l1 l2 -> total l1 = total l2.
Proof. induction 1; simpl; lia. Qed.

Lemma filter_perm {A : Type} (p : A -> bool) (l1 l2 : list A) :
  Permutation l1 l2 -> Permutation (filter p l1) (filter p l2).
Proof.
  induction 1 as [|x l1 l2 _ IH|x y l|l1 l2 l3 _ IH1 _ IH2]; simpl.
  - constructor.
  - destruct (p x); [now constructor|exact IH].
  - destruct (p x), (p y); try reflexivity. apply perm_swap.
  - now transitivity (filter p l2).
Qed.

Lemma filter_split_perm {A : Type} (p : A -> bool) (l : list A) :
  Permutation (filter p l ++ filter (fun a => negb (p a)) l) l.
Proof.
  induction l as [|x t IH]; simpl; [constructor|].
  destruct (p x); simpl.
  - now constructor.
  - rewrite <- Permutation_middle. now constructor.
Qed.

Lemma filter_map_comm {A B : Type} (f : A -> B) (p : B -> bool) (l : list A) :
  filter p (map f l) = map f (filter (fun a => p (f a)) l).
Proof.
  induction l as [|x t IH]; simpl; [reflexivity|].
  destruct (p (f x)); simpl; now rewrite IH.
Qed.

Lemma StronglySorted_weaken {A : Type} (R1 R2 : A -> A -> Prop) (l : list A) :
  (forall x y, R1 x y -> R2 x y) -> StronglySorted R1 l -> StronglySorted R2 l.
Proof.
  intros Himp. induction 1 as [|x t _ IH Hx]; constructor; [exact IH|].
  eapply Forall_impl; [|exact Hx]. intros y. apply Himp.
Qed.

Lemma StronglySorted_firstn {A : Type} (R : A -> A -> Prop) (n : nat)
    (l : list A) :
  StronglySorted R l -> StronglySorted R (firstn n l).
Proof.
  intros Hs. revert n. induction Hs as [|x t _ IH Hx]; intros [|n]; simpl;
    try constructor; [apply IH|].
  rewrite Forall_forall in *. intros y Hy. apply Hx.
  rewrite <- (firstn_skipn n t). apply in_or_app. now left.
Qed.

(** In a sorted list everything after position [n] is related to
    everything before it. *)
Lemma StronglySorted_firstn_skipn {A : Type} (R : A -> A -> Prop) (n : nat)
    (l : list A) (a b : A) :
  StronglySorted R l -> In a (firstn n l) -> In b (skipn n l) -> R a b.
Proof.
  intros Hs. revert n. induction Hs as [|x t _ IH Hx]; intros [|n]; simpl;
    try tauto.
  intros [->|Ha] Hb.
  - rewrite Forall_forall in Hx. apply Hx.
    rewrite <- (firstn_skipn n t). apply in_or_app. now right.
  - now apply (IH n).
Qed.

(** ** [value_counts] *)

Section ValueCountsFacts.
Context {K : Type} `{Label K} `{SortKernel}.

Lemma value_counts_perm (col : list K) :
  Permutation (map (fun k => (k, count k col)) (unique col)) (value_counts col).
Proof. apply sort_by_perm. Qed.

Lemma value_counts_In (col : list K) (k : K) (c : Z) :
  In (k, c) (value_counts col) <-> In k col /\ c = count k col.
Proof.
  split.
  - intros Hin.
    apply (Permutation_in _ (Permutation_sym (value_counts_perm col))) in Hin.
    apply in_map_iff in Hin. destruct Hin as (k' & E & Hk).
    inversion E; subst. split; [now apply unique_In|reflexivity].
  - intros [Hk ->].
    apply (Permutation_in _ (value_counts_perm col)).
    apply in_map_iff. exists k. split; [reflexivity|now apply unique_In].
Qed.

Lemma value_counts_index (col : list K) :
  Permutation (unique col) (index (value_counts col)).
Proof.
  unfold index. rewrite <- (value_counts_perm col), map_map. simpl.
  rewrite map_id. reflexivity.
Qed.

Lemma value_counts_index_In (col : list K) (k : K) :
  In k (index (value_counts col)) <-> In k col.
Proof.
  rewrite <- (unique_In col). split; apply Permutation_in;
    [symmetry|]; apply value_counts_index.
Qed.

Lemma value_counts_NoDup (col : list K) : NoDup (index (value_counts col)).
Proof.
  eapply Permutation_NoDup; [apply value_counts_index|apply unique_NoDup].
Qed.

Lemma value_counts_total (col : list K) :
  total (values (value_counts col)) = Z.of_nat (length col).
Proof.
  unfold values. rewrite <- (total_perm _ _ (Permutation_map snd (value_counts_perm col))).
  rewrite map_map. simpl. apply total_count_unique.
Qed.

(** The entries of [value_counts] are sorted by descending count. *)
Lemma value_counts_sorted (col : list K) :
  StronglySorted (fun a b => snd b <= snd a) (value_counts col).
Proof.
  unfold value_counts.
  eapply StronglySorted_weaken.
  2:{ apply sort_by_sorted.
      - intros x y. rewrite !Z.leb_le. lia.
      - intros x y z. rewrite !Z.leb_le. lia. }
  intros x y. simpl. apply Z.leb_le.
Qed.
End ValueCountsFacts.

(** ** Popularity: counts and the threshold filter *)

Section Popularity.
Context `{SortKernel}.

Lemma ratings_per_movie_In (ratings : list Rating.row) (m c : Z) :
  In (m, c) (ratings_per_movie ratings) <->
  In m (map Rating.movie_id ratings) /\ c = n_ratings ratings m.
Proof. apply value_counts_In. Qed.

Lemma filtered_movies_at_In (t : Z) (ratings : list Rating.row) (m c : Z) :
  In (m, c) (filtered_movies_at t ratings) <->
  In (m, c) (ratings_per_movie ratings) /\ t <= c.
Proof.
  unfold filtered_movies_at, mask_ge. rewrite filter_In. simpl.
  now rewrite Z.leb_le.
Qed.

Lemma removed_movies_at_In (t : Z) (ratings : list Rating.row) (m c : Z) :
  In (m, c) (removed_movies_at t ratings) <->
  In (m, c) (ratings_per_movie ratings) /\ c < t.
Proof.
  unfold removed_movies_at. rewrite filter_In. simpl.
  rewrite negb_true_iff, Z.leb_gt. reflexivity.
Qed.

Lemma partition_at_perm (t : Z) (ratings : list Rating.row) :
  Permutation (filtered_movies_at t ratings ++ removed_movies_at t ratings)
              (ratings_per_movie ratings).
Proof. apply filter_split_perm. Qed.

Lemma partition_at_NoDup (t : Z) (ratings : list Rating.row) :
  NoDup (index (filtered_movies_at t ratings)
         ++ index (removed_movies_at t ratings)).
Proof.
  unfold index. rewrite <- map_app.
  eapply Permutation_NoDup.
  - apply Permutation_map. symmetry. apply partition_at_perm.
  - apply value_counts_NoDup.
Qed.

(** C7.  For every ratings table, the per-movie rating counts of
    [ratings_per_movie] (line 113) add up to the number of rows of the
    table. *)
Theorem rating_counts_sum_to_rows (ratings : list Rating.row) :
  total (values (ratings_per_movie ratings)) = Z.of_nat (length ratings).
Proof.
  unfold ratings_per_movie. rewrite value_counts_total.
  now rewrite length_map.
Qed.

(** C1.  The filter of line 136 partitions the per-movie counts exactly:
    a retained movie has its true count and that count is at least 50, a
    removed movie has its true count and that count is below 50, every
    movie with a rating is in exactly one of the two sets, no movie is
    listed twice, and together the two sets are [ratings_per_movie]. *)
Theorem filter_partitions_counts (ratings : list Rating.row) :
  (forall m c, In (m, c) (filtered_movies ratings) ->
               c = n_ratings ratings m /\ 50 <= c) /\
  (forall m c, In (m, c) (removed_movies ratings) ->
               c = n_ratings ratings m /\ c < 50) /\
  (forall m, In m (map Rating.movie_id ratings) ->
             (In m (index (filtered_movies ratings)) /\
              ~ In m (index (removed_movies ratings)))
             \/
             (In m (index (removed_movies ratings)) /\
              ~ In m (index (filtered_movies ratings)))) /\
  NoDup (index (filtered_movies ratings) ++ index (removed_movies ratings)) /\
  Permutation (filtered_movies ratings ++ removed_movies ratings)
              (ratings_per_movie ratings).
Proof.
  unfold filtered_movies, removed_movies.
  pose proof (partition_at_NoDup 50 ratings) as Hnd.
  split; [|split; [|split; [|split]]].
  - intros m c Hk. apply filtered_movies_at_In in Hk. destruct Hk as [Hin Hc].
    apply ratings_per_movie_In in Hin. tauto.
  - intros m c Hr. apply removed_movies_at_In in Hr. destruct Hr as [Hin Hc].
    apply ratings_per_movie_In in Hin. tauto.
  - intros m Hm.
    assert (Hin : In (m, n_ratings ratings m) (ratings_per_movie ratings)).
    { apply ratings_per_movie_In. now split. }
    destruct (Z_le_gt_dec 50 (n_ratings ratings m)) as [Hge|Hlt].
    + left.
      assert (Hk : In m (index (filtered_movies_at 50 ratings))).
      { apply in_map_iff. exists (m, n_ratings ratings m).
        split; [reflexivity|]. now apply filtered_movies_at_In. }
      split; [exact Hk|]. intros Hr.
      apply in_split in Hk. destruct Hk as (l1 & l2 & E).
      rewrite E, <- app_assoc in Hnd. apply NoDup_remove_2 in Hnd.
      apply Hnd. apply in_or_app. right. apply in_or_app. now right.
    + right.
      assert (Hr : In m (index (removed_movies_at 50 ratings))).
      { apply in_map_iff. exists (m, n_ratings ratings m).
        split; [reflexivity|]. apply removed_movies_at_In. split; [exact Hin|lia]. }
      split; [exact Hr|]. intros Hk.
      apply in_split in Hr. destruct Hr as (l1 & l2 & E).
      rewrite E, app_assoc in Hnd. apply NoDup_remove_2 in Hnd.
      apply Hnd. apply in_or_app. left. apply in_or_app. now left.
  - exact Hnd.
  - apply partition_at_perm.
Qed.
End Popularity.

(** ** [groupby(...).mean()] *)

Section GroupByFacts.
Context {R K : Type} `{Label K} (key : R -> K) (val : R -> Z).

Lemma group_keys_perm (col : list K) : Permutation (unique col) (group_keys col).
Proof. apply insertion_sort_perm. Qed.

Lemma group_keys_In (col : list K) (k : K) : In k (group_keys col) <-> In k col.
Proof.
  rewrite <- (unique_In col). split; apply Permutation_in;
    [symmetry|]; apply group_keys_perm.
Qed.

Lemma group_keys_NoDup (col : list K) : NoDup (group_keys col).
Proof.
  eapply Permutation_NoDup; [apply group_keys_perm|apply unique_NoDup].
Qed.

Lemma groupby_mean_index (rows : list R) :
  index (groupby_mean key val rows) = group_keys (map key rows).
Proof.
  unfold index, groupby_mean. rewrite map_map. simpl. apply map_id.
Qed.

Lemma groupby_mean_In (rows : list R) (k : K) (mu : Q) :
  In (k, mu) (groupby_mean key val rows) <->
  In k (map key rows) /\ mu = mean (group key val rows k).
Proof.
  unfold groupby_mean. rewrite in_map_iff. split.
  - intros (k' & E & Hk). inversion E; subst.
    split; [now apply group_keys_In|reflexivity].
  - intros [Hk ->]. exists k. split; [reflexivity|now apply group_keys_In].
Qed.

Lemma group_length (rows : list R) (k : K) :
  Z.of_nat (length (group key val rows k)) = count k (map key rows).
Proof.
  unfold group, count. rewrite length_map. f_equal.
  induction rows as [|r t IH]; simpl; [reflexivity|].
  destruct (label_eqb_spec (key r) k) as [E|Hne].
  - rewrite E, label_eqb_refl. simpl. now rewrite IH.
  - destruct (label_eqb_spec k (key r)) as [E|_]; [congruence|exact IH].
Qed.

(** No group of [groupby] is empty. *)
Lemma group_nonempty (rows : list R) (k : K) :
  In k (map key rows) -> group key val rows k <> [].
Proof.
  intros Hk E. apply count_pos in Hk. rewrite <- group_length, E in Hk.
  simpl in Hk. lia.
Qed.

(** The group sizes add up to the number of rows. *)
Lemma group_sizes_total (rows : list R) :
  total (map (fun k => Z.of_nat (length (group key val rows k)))
             (group_keys (map key rows)))
  = Z.of_nat (length rows).
Proof.
  rewrite (map_ext _ (fun k => count k (map key rows)))
    by (intros; apply group_length).
  rewrite <- (total_perm _ _ (Permutation_map _ (group_keys_perm (map key rows)))).
  rewrite total_count_unique. now rewrite length_map.
Qed.
End GroupByFacts.

(** ** The mean lies between the extremes *)

Lemma fold_min_spec (t : list Z) (x : Z) :
  fold_left Z.min t x <= x /\ Forall (fun y => fold_left Z.min t x <= y) t.
Proof.
  revert x. induction t as [|y t IH]; intros x; simpl.
  - split; [lia|constructor].
  - destruct (IH (Z.min x y)) as [Hx Ht]. split; [lia|].
    constructor; [lia|exact Ht].
Qed.

Lemma fold_max_spec (t : list Z) (x : Z) :
  x <= fold_left Z.max t x /\ Forall (fun y => y <= fold_left Z.max t x) t.
Proof.
  revert x. induction t as [|y t IH]; intros x; simpl.
  - split; [lia|constructor].
  - destruct (IH (Z.max x y)) as [Hx Ht]. split; [lia|].
    constructor; [lia|exact Ht].
Qed.

Lemma total_lower (lo : Z) (l : list Z) :
  Forall (fun y => lo <= y) l -> lo * Z.of_nat (length l) <= total l.
Proof. induction 1; simpl total; simpl length; lia. Qed.

Lemma total_upper (hi : Z) (l : list Z) :
  Forall (fun y => y <= hi) l -> total l <= hi * Z.of_nat (length l).
Proof. induction 1; simpl total; simpl length; lia. Qed.

Lemma mean_bounds (l : list Z) (lo hi : Z) :
  l <> [] ->
  Forall (fun y => lo <= y) l -> Forall (fun y => y <= hi) l ->
  (inject_Z lo <= mean l <= inject_Z hi)%Q.
Proof.
  intros Hne Hlo Hhi. unfold mean.
  assert (Hn : (0 < inject_Z (Z.of_nat (length l)))%Q).
  { change 0%Q with (inject_Z 0). rewrite <- Zlt_Qlt.
    destruct l; [contradiction|simpl length; lia]. }
  split.
  - apply Qle_shift_div_l; [exact Hn|].
    rewrite <- inject_Z_mult, <- Zle_Qle. now apply total_lower.
  - apply Qle_shift_div_r; [exact Hn|].
    rewrite <- inject_Z_mult, <- Zle_Qle. now apply total_upper.
Qed.

Lemma mean_between_extremes (l : list Z) :
  l <> [] ->
  exists lo hi, col_min l = Some lo /\ col_max l = Some hi /\
                (inject_Z lo <= mean l <= inject_Z hi)%Q.
Proof.
  intros Hne. destruct l as [|x t]; [contradiction|].
  exists (fold_left Z.min t x), (fold_left Z.max t x).
  split; [reflexivity|]. split; [reflexivity|].
  destruct (fold_min_spec t x), (fold_max_spec t x).
  apply mean_bounds; [exact Hne| |]; now constructor.
Qed.

(** C4.  Every movie with at least one rating has an entry in
    [avg_rating_per_movie] (line 124), and the mean of every entry lies
    between the smallest and the largest rating of that movie. *)
Theorem mean_within_min_max (ratings : list Rating.row) :
  (forall m, In m (map Rating.movie_id ratings) ->
             exists mu, In (m, mu) (avg_rating_per_movie ratings)) /\
  (forall m mu, In (m, mu) (avg_rating_per_movie ratings) ->
     mu = mean (ratings_of ratings m) /\
     exists lo hi,
       col_min (ratings_of ratings m) = Some lo /\
       col_max (ratings_of ratings m) = Some hi /\
       (inject_Z lo <= mu <= inject_Z hi)%Q).
Proof.
  split.
  - intros m Hm. exists (mean (ratings_of ratings m)).
    apply groupby_mean_In. now split.
  - intros m mu Hin. apply groupby_mean_In in Hin. destruct Hin as [Hm ->].
    split; [reflexivity|].
    apply mean_between_extremes. now apply group_nonempty.
Qed.

(** ** Selecting entries by label *)

Section LookupFacts.
Context {K V : Type} `{Label K}.

Lemma loc_label_absent (s : Series K V) (k : K) :
  ~ In k (index s) -> loc_label s k = [].
Proof.
  induction s as [|[k' v'] t IH]; simpl; [reflexivity|]. intros Hn.
  destruct (label_eqb_spec k' k) as [E|_]; [tauto|]. apply IH. tauto.
Qed.

Lemma loc_label_unique (s : Series K V) (k : K) (v : V) :
  NoDup (index s) -> In (k, v) s -> loc_label s k = [(k, v)].
Proof.
  induction s as [|[k' v'] t IH]; simpl; [tauto|].
  intros Hnd Hin. inversion Hnd as [|? ? Hk' Hnd']; subst.
  destruct (label_eqb_spec k' k) as [->|Hne].
  - rewrite (loc_label_absent t k Hk').
    destruct Hin as [E|Hin]; [now inversion E|].
    exfalso. apply Hk'. apply in_map_iff. now exists (k, v).
  - destruct Hin as [E|Hin]; [inversion E; congruence|]. now apply IH.
Qed.

Lemma missing_labels_nil (s : Series K V) (labels : list K) :
  incl labels (index s) -> missing_labels s labels = [].
Proof.
  unfold missing_labels. induction labels as [|k t IH]; intros Hin; simpl;
    [reflexivity|].
  assert (E : existsb (label_eqb k) (index s) = true).
  { apply existsb_label, Hin. now left. }
  rewrite E. simpl. apply IH. intros x Hx. apply Hin. now right.
Qed.

Lemma missing_labels_In (s : Series K V) (labels : list K) (k : K) :
  In k (missing_labels s labels) <-> In k labels /\ ~ In k (index s).
Proof.
  unfold missing_labels. rewrite filter_In, negb_true_iff.
  split; intros [Hk Hn]; (split; [exact Hk|]).
  - intros F. apply existsb_label in F. congruence.
  - destruct (existsb (label_eqb k) (index s)) eqn:E; [|reflexivity].
    apply existsb_label in E. contradiction.
Qed.

Lemma flat_map_loc_label (s : Series K V) (labels : list K) :
  NoDup (index s) -> incl labels (index s) ->
  index (flat_map (loc_label s) labels) = labels /\
  incl (flat_map (loc_label s) labels) s.
Proof.
  intros Hnd. induction labels as [|k t IH]; intros Hin; simpl.
  - split; [reflexivity|intros ? []].
  - destruct IH as [IHi IHs]; [intros x Hx; apply Hin; now right|].
    assert (Hk : In k (index s)) by (apply Hin; now left).
    apply in_map_iff in Hk. destruct Hk as ([k' v] & E & Hkv).
    simpl in E. subst k'.
    rewrite (loc_label_unique s k v Hnd Hkv). simpl. split.
    + now rewrite IHi.
    + intros e [<-|He]; [exact Hkv|now apply IHs].
Qed.

(** On a Series with distinct labels, selecting labels that are all in
    the index succeeds and returns one entry per label, in label order. *)
Lemma getitem_labels_total (s : Series K V) (labels : list K) :
  NoDup (index s) -> incl labels (index s) ->
  exists sel, getitem_labels s labels = inr sel /\
              index sel = labels /\ incl sel s.
Proof.
  intros Hnd Hin. unfold getitem_labels.
  rewrite (missing_labels_nil s labels Hin).
  exists (flat_map (loc_label s) labels). split; [reflexivity|].
  now apply flat_map_loc_label.
Qed.

(** A label outside the index makes the selection fail. *)
Lemma getitem_labels_missing (s : Series K V) (labels : list K) (k : K) :
  In k labels -> ~ In k (index s) ->
  exists missing, getitem_labels s labels = inl missing /\ In k missing.
Proof.
  intros Hk Hn. unfold getitem_labels.
  assert (Hm : In k (missing_labels s labels)) by now apply missing_labels_In.
  destruct (missing_labels s labels) as [|x t]; [contradiction|].
  now exists (x :: t).
Qed.
End LookupFacts.

(** ** Means of the filtered movies *)

Section FilteredMeans.
Context `{SortKernel}.

Lemma filtered_index_rated (t : Z) (ratings : list Rating.row) :
  incl (index (filtered_movies_at t ratings))
       (index (avg_rating_per_movie ratings)).
Proof.
  intros m Hm. apply in_map_iff in Hm. destruct Hm as ([m' c] & E & Hin).
  simpl in E. subst m'.
  apply filtered_movies_at_In in Hin. destruct Hin as [Hin _].
  apply ratings_per_movie_In in Hin. destruct Hin as [Hm _].
  unfold avg_rating_per_movie. rewrite groupby_mean_index.
  now apply group_keys_In.
Qed.

Lemma avg_rating_per_movie_NoDup (ratings : list Rating.row) :
  NoDup (index (avg_rating_per_movie ratings)).
Proof.
  unfold avg_rating_per_movie. rewrite groupby_mean_index.
  apply group_keys_NoDup.
Qed.

Lemma filtered_avg_ratings_at_total (t : Z) (ratings : list Rating.row) :
  exists sel,
    filtered_avg_ratings_at t ratings = inr sel /\
    index sel = index (filtered_movies_at t ratings) /\
    incl sel (avg_rating_per_movie ratings).
Proof.
  unfold filtered_avg_ratings_at.
  destruct (getitem_labels_total (avg_rating_per_movie ratings)
              (index (filtered_movies_at t ratings))
              (avg_rating_per_movie_NoDup ratings)
              (filtered_index_rated t ratings)) as (sel & E & Hi & Hs).
  exists sel. rewrite E. simpl. now repeat split.
Qed.

(** C9.  Every movie id retained by the filter of line 136 is a key of
    [avg_rating_per_movie], so the selection of line 141 returns a Series
    and never raises: it has one entry per retained movie, in the order of
    [filtered_movies], holding that movie's mean rating. *)
Theorem filtered_lookup_total (ratings : list Rating.row) :
  incl (index (filtered_movies ratings))
       (index (avg_rating_per_movie ratings)) /\
  exists sel,
    filtered_avg_ratings ratings = inr sel /\
    index sel = index (filtered_movies ratings) /\
    (forall m mu, In (m, mu) sel -> mu = mean (ratings_of ratings m)).
Proof.
  split; [apply filtered_index_rated|].
  destruct (filtered_avg_ratings_at_total 50 ratings) as (sel & E & Hi & Hs).
  exists sel. split; [exact E|]. split; [exact Hi|].
  intros m mu Hin. apply Hs in Hin.
  now apply groupby_mean_In in Hin.
Qed.
End FilteredMeans.

(** ** The top-10 ranking *)

Section Ranking.
Context `{SortKernel}.

Lemma Qle_bool_total (x y : Q) : Qle_bool x y = true \/ Qle_bool y x = true.
Proof.
  rewrite !Qle_bool_iff. destruct (Qlt_le_dec x y) as [Hlt|Hle].
  - left. now apply Qlt_le_weak.
  - now right.
Qed.

Lemma sort_values_desc_perm {K : Type} (s : Series K Q) :
  Permutation s (sort_values_desc s).
Proof. apply sort_by_perm. Qed.

Lemma sort_values_desc_sorted {K : Type} (s : Series K Q) :
  StronglySorted (fun a b => (snd b <= snd a)%Q) (sort_values_desc s).
Proof.
  unfold sort_values_desc.
  eapply StronglySorted_weaken.
  2:{ apply sort_by_sorted.
      - intros x y. apply Qle_bool_total.
      - intros x y z. rewrite !Qle_bool_iff. intros Hyx Hzy.
        now apply Qle_trans with (snd y). }
  intros x y. simpl. apply Qle_bool_iff.
Qed.

Lemma filtered_movies_at_length (t : Z) (ratings : list Rating.row) :
  length (filtered_movies_at t ratings)
  = length (movies_with_at_least t ratings).
Proof.
  unfold filtered_movies_at, mask_ge, movies_with_at_least, ratings_per_movie.
  rewrite <- (Permutation_length
                (filter_perm _ _ _ (value_counts_perm (map Rating.movie_id ratings)))).
  rewrite filter_map_comm, length_map. reflexivity.
Qed.

Lemma top_10_of_length (s : Series Z Q) :
  length (top_10_of s) = Nat.min 10 (length s).
Proof.
  unfold top_10_of, head. rewrite length_firstn.
  now rewrite <- (Permutation_length (sort_values_desc_perm s)).
Qed.

(** C10.  [top_10_movies] (line 146) is always a Series, with
    [min 10 n] entries where [n] is the number of movies with at least 50
    ratings; when no movie has 50 ratings it is the empty Series. *)
Theorem top_10_length (ratings : list Rating.row) :
  exists top,
    top_10_movies ratings = inr top /\
    length top = Nat.min 10 (length (movies_with_at_least 50 ratings)) /\
    (movies_with_at_least 50 ratings = [] -> top = []).
Proof.
  destruct (filtered_avg_ratings_at_total 50 ratings) as (sel & E & Hi & _).
  assert (Hlen : length sel = length (movies_with_at_least 50 ratings)).
  { rewrite <- filtered_movies_at_length.
    rewrite <- (length_map fst sel), <- (length_map fst (filtered_movies_at _ _)).
    exact (f_equal (@length Z) Hi). }
  exists (top_10_of sel). unfold top_10_movies, filtered_avg_ratings.
  rewrite E. split; [reflexivity|].
  rewrite top_10_of_length, Hlen. split; [reflexivity|].
  intros Hnone.
  assert (L : length (top_10_of sel) = 0%nat).
  { rewrite top_10_of_length, Hlen, Hnone. reflexivity. }
  now destruct (top_10_of sel).
Qed.
End Ranking.

(** ** The fixture of the specification *)

Section Fixture.
Context `{SortKernel}.

Lemma sort_by_singleton {A : Type} (le : A -> A -> bool) (x : A) :
  sort_by le [x] = [x].
Proof. apply Permutation_length_1_inv, sort_by_perm. Qed.

Lemma fixture_counts (a b c d : Z) :
  Permutation [(1, 3); (2, 1)] (ratings_per_movie (fixture a b c d)).
Proof. exact (value_counts_perm (map Rating.movie_id (fixture a b c d))). Qed.

Lemma fixture_filtered (a b c d : Z) :
  filtered_movies_at 2 (fixture a b c d) = [(1, 3)].
Proof.
  apply Permutation_length_1_inv.
  apply (filter_perm (fun e => 2 <=? snd e) _ _ (fixture_counts a b c d)).
Qed.

Lemma fixture_means (a b c d : Z) :
  avg_rating_per_movie (fixture a b c d) = [(1, 14 # 3); (2, 1 # 1)].
Proof. reflexivity. Qed.

(** C3.  On the fixture (movie 1 rated 5, 5, 4; movie 2 rated 1) the
    count, filter and mean steps of lines 134-147, run with threshold 2 in
    place of 50, retain movie 1 and nothing else, with mean 14/3, which is
    4.67 to two decimals; movie 2 is excluded. *)
Theorem fixture_threshold_2 (a b c d : Z) :
  filtered_movies_at 2 (fixture a b c d) = [(1, 3)] /\
  filtered_avg_ratings_at 2 (fixture a b c d) = inr [(1, 14 # 3)] /\
  top_10_of [(1, 14 # 3)] = [(1, 14 # 3)] /\
  ~ In 2 (index (filtered_movies_at 2 (fixture a b c d))) /\
  (14 # 3 == 14 / 3)%Q /\
  (4665 # 1000 <= 14 # 3 < 4675 # 1000)%Q.
Proof.
  split; [apply fixture_filtered|].
  split.
  { unfold filtered_avg_ratings_at.
    rewrite fixture_filtered, fixture_means. reflexivity. }
  split.
  { unfold top_10_of, sort_values_desc. now rewrite sort_by_singleton. }
  split.
  { rewrite fixture_filtered. simpl. intros [F|[]]. discriminate. }
  split; [reflexivity|].
  split; [discriminate|reflexivity].
Qed.

(** With the script's own threshold the fixture has no popular movie. *)
Lemma fixture_threshold_50 (a b c d : Z) :
  filtered_movies (fixture a b c d) = [] /\
  top_10_movies (fixture a b c d) = inr [].
Proof.
  assert (E : filtered_movies (fixture a b c d) = []).
  { apply Permutation_nil.
    apply (filter_perm (fun e => 50 <=? snd e) _ _ (fixture_counts a b c d)). }
  split; [exact E|].
  destruct (filtered_avg_ratings_at_total 50 (fixture a b c d))
    as (sel & Es & Hi & _).
  unfold top_10_movies, filtered_avg_ratings. rewrite Es.
  change (filtered_movies_at 50) with filtered_movies in Hi. rewrite E in Hi.
  destruct sel; [|discriminate].
  unfold top_10_of, sort_values_desc.
  now rewrite (Permutation_nil (sort_by_perm _ _ [])).
Qed.
End Fixture.

(** ** Inner joins *)

Section MergeFacts.
Context {L R K : Type} `{Label K} (lkey : L -> K) (rkey : R -> K).

Lemma merge_In (left : list L) (right : list R) (l : L) (r : R) :
  In (l, r) (merge lkey rkey left right) <->
  In l left /\ In r right /\ rkey r = lkey l.
Proof.
  unfold merge. rewrite in_flat_map. split.
  - intros (l' & Hl & Hin). apply in_map_iff in Hin.
    destruct Hin as (r' & E & Hr). inversion E; subst.
    apply filter_In in Hr. destruct Hr as [Hr Hk].
    apply label_eqb_eq in Hk. tauto.
  - intros (Hl & Hr & Hk). exists l. split; [exact Hl|].
    apply in_map_iff. exists r. split; [reflexivity|].
    apply filter_In. split; [exact Hr|]. now apply label_eqb_eq.
Qed.

(** A left row is in the joined table exactly when its key occurs in the
    right table. *)
Lemma merge_left_kept (left : list L) (right : list R) (l : L) :
  In l (map fst (merge lkey rkey left right)) <->
  In l left /\ In (lkey l) (map rkey right).
Proof.
  rewrite in_map_iff. split.
  - intros ([l' r] & E & Hin). simpl in E. subst l'.
    apply merge_In in Hin. destruct Hin as (Hl & Hr & Hk).
    split; [exact Hl|]. rewrite <- Hk. now apply in_map.
  - intros [Hl Hk]. apply in_map_iff in Hk. destruct Hk as (r & Hk & Hr).
    exists (l, r). split; [reflexivity|]. now apply merge_In.
Qed.

Lemma merge_right_kept (left : list L) (right : list R) (r : R) :
  In r (map snd (merge lkey rkey left right)) <->
  In r right /\ In (rkey r) (map lkey left).
Proof.
  rewrite in_map_iff. split.
  - intros ([l r'] & E & Hin). simpl in E. subst r'.
    apply merge_In in Hin. destruct Hin as (Hl & Hr & Hk).
    split; [exact Hr|]. rewrite Hk. now apply in_map.
  - intros [Hr Hk]. apply in_map_iff in Hk. destruct Hk as (l & Hk & Hl).
    exists (l, r). split; [reflexivity|]. apply merge_In. now repeat split.
Qed.

Lemma matches_length (right : list R) (k : K) :
  Z.of_nat (length (filter (fun r => label_eqb (rkey r) k) right))
  = count k (map rkey right).
Proof.
  unfold count. f_equal. induction right as [|r t IH]; simpl; [reflexivity|].
  destruct (label_eqb_spec (rkey r) k) as [E|Hne].
  - rewrite E, label_eqb_refl. simpl. now rewrite IH.
  - destruct (label_eqb_spec k (rkey r)) as [E|_]; [congruence|exact IH].
Qed.

(** Each left row contributes as many joined rows as it has partners. *)
Lemma merge_length (left : list L) (right : list R) :
  Z.of_nat (length (merge lkey rkey left right))
  = total (map (fun l => count (lkey l) (map rkey right)) left).
Proof.
  unfold merge. induction left as [|l t IH]; simpl; [reflexivity|].
  rewrite length_app, length_map, Nat2Z.inj_add, IH, matches_length.
  reflexivity.
Qed.

Lemma count_unique_key (col : list K) (k : K) :
  NoDup col -> count k col = if existsb (label_eqb k) col then 1 else 0.
Proof.
  induction 1 as [|x t Hx Hnd IH]; [reflexivity|].
  rewrite count_cons, IH. simpl.
  destruct (label_eqb_spec k x) as [->|Hne]; simpl; [|reflexivity].
  destruct (existsb (label_eqb x) t) eqn:E; [|reflexivity].
  apply existsb_label in E. contradiction.
Qed.

(** When the right key is unique, the joined table has one row per left
    row with a partner. *)
Lemma merge_length_unique (left : list L) (right : list R) :
  NoDup (map rkey right) ->
  length (merge lkey rkey left right)
  = length (filter (fun l => existsb (label_eqb (lkey l)) (map rkey right))
                   left).
Proof.
  intros Hnd. apply Nat2Z.inj. rewrite merge_length.
  induction left as [|l t IH]; simpl; [reflexivity|].
  rewrite IH, (count_unique_key _ _ Hnd).
  destruct (existsb (label_eqb (lkey l)) (map rkey right)); simpl length; lia.
Qed.
End MergeFacts.

(** ** The base tables across the cells *)

(** What the three loaded names are bound to. *)
Definition base (st : State)
    : option value * option value * option value :=
  (store st Var.movie, store st Var.ratings, store st Var.user).

(** A computation that leaves the three loaded names as they are. *)
Definition preserves_base {A : Type} (c : Cell A) : Prop :=
  forall st a st', c st = inr (a, st') -> base st' = base st.

(** The names the cells assign to. *)
Definition derived (x : Var.t) : bool :=
  match x with
  | Var.movie | Var.ratings | Var.user => false
  | _ => true
  end.

Create HintDb frame.

Lemma preserves_ret {A : Type} (a : A) : preserves_base (ret a).
Proof. intros st a' st' E. inversion E. reflexivity. Qed.

Lemma preserves_raise {A : Type} (e : Error) : preserves_base (@raise A e).
Proof. intros st a st' E. discriminate. Qed.

Lemma preserves_bind {A B : Type} (c : Cell A) (k : A -> Cell B) :
  preserves_base c -> (forall a, preserves_base (k a)) ->
  preserves_base (bind c k).
Proof.
  intros Hc Hk st b st' E. unfold bind in E.
  destruct (c st) as [e|[a st1]] eqn:Ec; [discriminate|].
  rewrite (Hk a _ _ _ E). exact (Hc _ _ _ Ec).
Qed.

Lemma preserves_read (x : Var.t) : preserves_base (read x).
Proof.
  intros st a st' E. unfold read in E.
  destruct (store st x); inversion E. reflexivity.
Qed.

Lemma preserves_show (s : Shown) : preserves_base (show s).
Proof. intros st a st' E. inversion E. reflexivity. Qed.

Lemma preserves_lift {A : Type} (r : Error + A) : preserves_base (lift r).
Proof. destruct r; [apply preserves_raise|apply preserves_ret]. Qed.

Lemma preserves_assign (x : Var.t) (v : value) :
  derived x = true -> preserves_base (assign x v).
Proof.
  intros Hx st a st' E. inversion E. unfold base. simpl.
  destruct x; try discriminate; reflexivity.
Qed.

Lemma preserves_bar_plot {K V : Type} (mk : Series K V -> value)
    (s : Series K V) :
  preserves_base (bar_plot mk s).
Proof. destruct s; [apply preserves_raise|apply preserves_show]. Qed.

#[local] Hint Resolve preserves_ret preserves_raise preserves_read
  preserves_show preserves_lift preserves_bar_plot : frame.

Ltac frame_step :=
  first
    [ apply preserves_bind; [|intros ?]
    | apply preserves_assign; reflexivity
    | match goal with |- preserves_base (match ?v with _ => _ end) =>
        destruct v end
    | solve [auto with frame] ].

Ltac frame := repeat frame_step.

Section Frame.
Context `{SortKernel}.

Lemma cells_preserve_base (c : Cell unit) : In c cells -> preserves_base c.
Proof.
  unfold cells. simpl. intros Hc.
  repeat (destruct Hc as [<-|Hc]); [..|contradiction];
    unfold cell_popularity, cell_average, cell_filter, cell_top_10,
      cell_titles, cell_join_titles, cell_title_rating, cell_hist_ratings,
      cell_hist_age, cell_gender, cell_gender_plot, cell_occupation,
      cell_occupation_plot, read_movie, read_ratings, read_user, read_counts,
      read_means, read_titles, read_ranked, read_joined, read_gender_means,
      read_occupations; frame.
Qed.

(** Whatever cells of the notebook are run, in whatever order and however
    often, the three loaded names keep their values. *)
Lemma run_cells_preserve_base (cs : list (Cell unit)) :
  incl cs cells -> preserves_base (run_cells cs).
Proof.
  induction cs as [|c rest IH]; intros Hin; simpl.
  - apply preserves_ret.
  - apply preserves_bind.
    + apply cells_preserve_base, Hin. now left.
    + intros _. apply IH. intros x Hx. apply Hin. now right.
Qed.
End Frame.

(** ** Running the script *)

Section Run.
Context `{SortKernel}.

Local Opaque value_counts groupby_mean mask_ge sort_values_desc merge
  getitem_labels head index values title_and_rating reset_index.

Ltac unfold_cells :=
  unfold script, cells, run_cells, cell_popularity, cell_average, cell_filter,
    cell_top_10, cell_titles, cell_join_titles, cell_title_rating,
    cell_hist_ratings, cell_hist_age, cell_gender, cell_gender_plot,
    cell_occupation, cell_occupation_plot, read_movie, read_ratings,
    read_user, read_counts, read_means, read_titles, read_ranked, read_joined,
    read_gender_means, read_occupations;
  unfold bind, read, assign, show, ret.

Lemma cell_join_titles_runs (st : State) (top : Series Z Q)
    (titles : list (Z * string)) :
  store st Var.top_10_movies = Some (VMeans top) ->
  store st Var.movie_titles = Some (VTitles titles) ->
  exists st',
    cell_join_titles st = inr (tt, st') /\
    store st' Var.top_10_movies_df
      = Some (VRanked (merge fst fst (reset_index top) titles)).
Proof.
  intros Ht Hm. unfold_cells. cbn. rewrite Ht. cbn. rewrite Hm. cbn.
  eexists. split; reflexivity.
Qed.

Lemma cell_gender_runs (st : State) (ratings : list Rating.row)
    (user : list User.row) :
  store st Var.ratings = Some (VRatings ratings) ->
  store st Var.user = Some (VUser user) ->
  exists st',
    cell_gender st = inr (tt, st') /\
    store st' Var.ratings_users
      = Some (VJoined (merge Rating.user_id User.user_id ratings user)).
Proof.
  intros Hr Hu. unfold_cells. cbn. rewrite Hr. cbn. rewrite Hu. cbn.
  eexists. split; reflexivity.
Qed.

Transparent value_counts groupby_mean mask_ge sort_values_desc merge
  getitem_labels head index values title_and_rating reset_index.
End Run.

(** ** Missing keys *)

Lemma filter_all {A : Type} (p : A -> bool) (l : list A) :
  (forall a, In a l -> p a = true) -> filter p l = l.
Proof.
  induction l as [|a t IH]; intros Hp; simpl; [reflexivity|].
  rewrite (Hp a) by now left. rewrite IH; [reflexivity|].
  intros b Hb. apply Hp. now right.
Qed.

Section MissingKeys.
Context {R K : Type} `{Label K} (key : R -> option K).

Definition has_key (r : R) : bool :=
  match key r with Some _ => true | None => false end.

Lemma dropna_In (col : list (option K)) (k : K) :
  In k (dropna col) <-> In (Some k) col.
Proof.
  unfold dropna. rewrite in_flat_map. split.
  - intros ([k'|] & Hin & Hk); simpl in Hk; [|contradiction].
    destruct Hk as [<-|[]]. exact Hin.
  - intros Hin. exists (Some k). split; [exact Hin|now left].
Qed.

Lemma dropna_length (rows : list R) :
  length (dropna (map key rows)) = length (filter has_key rows).
Proof.
  unfold dropna, has_key. induction rows as [|r t IH]; simpl; [reflexivity|].
  destruct (key r); simpl; now rewrite IH.
Qed.

Lemma keyed_In (rows : list R) (k : K) (r : R) :
  In (k, r) (keyed key rows) <-> In r rows /\ key r = Some k.
Proof.
  unfold keyed. rewrite in_flat_map. split.
  - intros (r' & Hin & Hk). destruct (key r') as [k'|] eqn:E; [|contradiction].
    destruct Hk as [Hk|[]]. inversion Hk; subst. now split.
  - intros [Hin E]. exists r. split; [exact Hin|]. rewrite E. now left.
Qed.

Lemma keyed_length (rows : list R) :
  length (keyed key rows) = length (filter has_key rows).
Proof.
  unfold keyed, has_key. induction rows as [|r t IH]; simpl; [reflexivity|].
  destruct (key r); simpl; now rewrite IH.
Qed.

Lemma keyed_keys (rows : list R) (k : K) :
  In k (map fst (keyed key rows)) <-> exists r, In r rows /\ key r = Some k.
Proof.
  rewrite in_map_iff. split.
  - intros ([k' r] & E & Hin). simpl in E. subst k'.
    exists r. now apply keyed_In.
  - intros (r & Hin & E). exists (k, r). split; [reflexivity|].
    now apply keyed_In.
Qed.

(** The group of key [k] among the rows that have a key. *)
Lemma group_keyed (val : R -> Z) (rows : list R) (k : K) :
  group fst (fun kr : K * R => val (snd kr)) (keyed key rows) k
  = map val (filter (fun r => match key r with
                              | Some k' => label_eqb k' k
                              | None => false
                              end) rows).
Proof.
  unfold group, keyed. induction rows as [|r t IH]; simpl; [reflexivity|].
  destruct (key r) as [k'|]; simpl; [|exact IH].
  destruct (label_eqb k' k); simpl; now rewrite IH.
Qed.
End MissingKeys.

(** ** Frame, joins and breakdowns *)

Section Tables.
Context `{SortKernel}.

(** C5.  Both joins keep exactly the pairs of rows with equal keys: a row
    of [top_10_movies] whose movie id is not in the movie table, and a
    rating whose user id is not in the user table, has no row in the joined
    table, and likewise a movie or a user nobody refers to.  The two cells
    that join (lines 158-161 and 209-215) end without an error whatever the
    keys are. *)
Theorem joins_are_inner (top : Series Z Q) (movie : list Movie.row)
    (ratings : list Rating.row) (user : list User.row) :
  (forall e t, In (e, t) (top_10_movies_df_of top movie) <->
               In e top /\ In t (movie_titles movie) /\ fst t = fst e) /\
  (forall e, In e (map fst (top_10_movies_df_of top movie)) <->
             In e top /\ In (fst e) (map Movie.movie_id movie)) /\
  (forall r u, In (r, u) (ratings_users ratings user) <->
               In r ratings /\ In u user /\
               User.user_id u = Rating.user_id r) /\
  (forall r, In r (map fst (ratings_users ratings user)) <->
             In r ratings /\ In (Rating.user_id r) (map User.user_id user)) /\
  (forall u, In u (map snd (ratings_users ratings user)) <->
             In u user /\ In (User.user_id u) (map Rating.user_id ratings)) /\
  (forall st,
     store st Var.top_10_movies = Some (VMeans top) ->
     store st Var.movie_titles = Some (VTitles (movie_titles movie)) ->
     exists st',
       cell_join_titles st = inr (tt, st') /\
       store st' Var.top_10_movies_df
         = Some (VRanked (top_10_movies_df_of top movie))) /\
  (forall st,
     store st Var.ratings = Some (VRatings ratings) ->
     store st Var.user = Some (VUser user) ->
     exists st',
       cell_gender st = inr (tt, st') /\
       store st' Var.ratings_users
         = Some (VJoined (ratings_users ratings user))).
Proof.
  split; [intros e t; apply merge_In|].
  split.
  { intros e. unfold top_10_movies_df_of, movie_titles, reset_index.
    rewrite merge_left_kept, map_map. simpl. reflexivity. }
  split; [intros r u; apply merge_In|].
  split; [intros r; apply merge_left_kept|].
  split; [intros u; apply merge_right_kept|].
  split.
  - intros st. apply cell_join_titles_runs.
  - intros st. apply cell_gender_runs.
Qed.

(** C6.  The per-occupation counts of line 232 add up to the number of
    rows of [ratings_users] whose occupation is not missing, and the sizes
    of the per-gender groups behind the means of line 214 add up to the
    number of rows whose gender is not missing; each is the number of all
    joined rows when no joined row lacks the value.  A rating is in
    [ratings_users] exactly when its user id is in the user table, once per
    user row with that id; no other row is there. *)
Theorem demographic_counts_cover_join (ratings : list Rating.row)
    (user : list User.row) :
  total (values (ratings_by_occupation ratings user))
    = Z.of_nat (length (with_occupation (ratings_users ratings user))) /\
  total (map (fun g => Z.of_nat (length (ratings_by_gender ratings user g)))
             (index (avg_rating_by_gender ratings user)))
    = Z.of_nat (length (with_gender (ratings_users ratings user))) /\
  ((forall ru, In ru (ratings_users ratings user) ->
               joined_occupation ru <> None) ->
   total (values (ratings_by_occupation ratings user))
     = Z.of_nat (length (ratings_users ratings user))) /\
  ((forall ru, In ru (ratings_users ratings user) ->
               joined_gender ru <> None) ->
   total (map (fun g => Z.of_nat (length (ratings_by_gender ratings user g)))
              (index (avg_rating_by_gender ratings user)))
     = Z.of_nat (length (ratings_users ratings user))) /\
  (forall r, In r ratings ->
             (In r (map fst (ratings_users ratings user)) <->
              In (Rating.user_id r) (map User.user_id user))) /\
  (forall r, In r (map fst (ratings_users ratings user)) -> In r ratings) /\
  Z.of_nat (length (ratings_users ratings user))
    = total (map (fun r => count (Rating.user_id r) (map User.user_id user))
                 ratings).
Proof.
  assert (Hocc : total (values (ratings_by_occupation ratings user))
                 = Z.of_nat (length (with_occupation
                                       (ratings_users ratings user)))).
  { unfold ratings_by_occupation. rewrite value_counts_total.
    now rewrite dropna_length. }
  assert (Hgen : total (map (fun g => Z.of_nat (length
                               (ratings_by_gender ratings user g)))
                            (index (avg_rating_by_gender ratings user)))
                 = Z.of_nat (length (with_gender
                                       (ratings_users ratings user)))).
  { unfold avg_rating_by_gender. rewrite groupby_mean_index.
    rewrite (map_ext _ (fun g => Z.of_nat (length
               (group fst (fun kr : string * (Rating.row * User.row) =>
                             Rating.rating (fst (snd kr)))
                      (keyed joined_gender (ratings_users ratings user)) g))))
      by (intros g; unfold ratings_by_gender; do 2 f_equal; symmetry;
          exact (group_keyed joined_gender
                   (fun ru : Rating.row * User.row => Rating.rating (fst ru))
                   (ratings_users ratings user) g)).
    rewrite group_sizes_total. now rewrite keyed_length. }
  split; [exact Hocc|]. split; [exact Hgen|]. split.
  { intros Hall. rewrite Hocc. unfold with_occupation.
    rewrite filter_all; [reflexivity|]. intros ru Hru.
    specialize (Hall ru Hru). now destruct (joined_occupation ru). }
  split.
  { intros Hall. rewrite Hgen. unfold with_gender.
    rewrite filter_all; [reflexivity|]. intros ru Hru.
    specialize (Hall ru Hru). now destruct (joined_gender ru). }
  split.
  { intros r Hr. unfold ratings_users. rewrite merge_left_kept. tauto. }
  split.
  { intros r Hr. unfold ratings_users in Hr. now apply merge_left_kept in Hr. }
  apply merge_length.
Qed.
End Tables.

(** A user table with a missing gender and occupation: the four ratings
    are all joined, but the per-occupation counts and the per-gender group
    sizes only cover the one rating of the user whose values are there. *)
Lemma demographic_counts_miss_rows :
  length (ratings_users partial_ratings partial_user) = 4%nat /\
  @ratings_by_occupation insertion_kernel partial_ratings partial_user
  = [("student"%string, 1)] /\
  avg_rating_by_gender partial_ratings partial_user
  = [("M"%string, 5 # 1)] /\
  total (values (@ratings_by_occupation insertion_kernel
                   partial_ratings partial_user))
  <> Z.of_nat (length (ratings_users partial_ratings partial_user)) /\
  total (map (fun g => Z.of_nat (length
                 (ratings_by_gender partial_ratings partial_user g)))
             (index (avg_rating_by_gender partial_ratings partial_user)))
  <> Z.of_nat (length (ratings_users partial_ratings partial_user)).
Proof. vm_compute. repeat split; discriminate. Qed.

(** ** Worked examples *)

Example sample_ratings_per_movie :
  @ratings_per_movie insertion_kernel sample_ratings
  = [(9, 60); (7, 50); (8, 2)].
Proof. vm_compute. reflexivity. Qed.

Example sample_avg_rating_per_movie :
  avg_rating_per_movie sample_ratings
  = [(7, 200 # 50); (8, 10 # 2); (9, 180 # 60)].
Proof. vm_compute. reflexivity. Qed.

(** Movie 8 leads the unfiltered ranking with two ratings; the filter
    takes it out. *)
Example sample_top_10_highest_rated :
  @top_10_highest_rated insertion_kernel sample_ratings
  = [(8, 10 # 2); (7, 200 # 50); (9, 180 # 60)].
Proof. vm_compute. reflexivity. Qed.

Example sample_top_10_movies :
  @top_10_movies insertion_kernel sample_ratings
  = inr [(7, 200 # 50); (9, 180 # 60)].
Proof. vm_compute. reflexivity. Qed.

(** Movie 9 is ranked but has no title: the join drops its row. *)
Example sample_top_10_movies_df :
  @top_10_movies_df insertion_kernel sample_ratings sample_movie
  = inr [((7, 200 # 50), (7, "Casablanca (1942)"%string))].
Proof. vm_compute. reflexivity. Qed.

(** Of the 112 ratings only the six by users 1 and 2 are joined. *)
Example sample_ratings_users :
  length sample_ratings = 112%nat /\
  length (ratings_users sample_ratings sample_user) = 6%nat /\
  avg_rating_by_gender sample_ratings sample_user
  = [("F"%string, 12 # 3); ("M"%string, 12 # 3)] /\
  @ratings_by_occupation insertion_kernel sample_ratings sample_user
  = [("student"%string, 3); ("engineer"%string, 3)].
Proof. vm_compute. repeat split. Qed.

(** A label that is not in the index fails the selection. *)
Example getitem_labels_missing_label :
  getitem_labels [(1, 1 # 1)] [1; 2; 3] = inl [2; 3].
Proof. vm_compute. reflexivity. Qed.

(** The whole script on the sample: no error, fifteen outputs. *)
Example sample_script :
  exists st,
    @script insertion_kernel (loaded sample_movie sample_ratings sample_user)
    = inr (tt, st) /\
    length (shown st) = 15%nat /\
    store st Var.top_10_movies
    = Some (VMeans [(7, 200 # 50); (9, 180 # 60)]).
Proof. eexists. vm_compute. repeat split. Qed.

(** With an empty user table nothing is joined, and the bar plot of the
    empty per-gender means stops the run. *)
Example empty_join_stops_at_plot :
  @script insertion_kernel (loaded sample_movie sample_ratings [])
  = inl PlotError.
Proof. vm_compute. reflexivity. Qed.

(** Rows with a missing gender or occupation are joined but not counted. *)
Example partial_user_breakdowns :
  length (ratings_users partial_ratings partial_user) = 4%nat /\
  avg_rating_by_gender partial_ratings partial_user
  = [("M"%string, 5 # 1)] /\
  @ratings_by_occupation insertion_kernel partial_ratings partial_user
  = [("student"%string, 1)].
Proof. vm_compute. repeat split. Qed.

(** Run before the filter cell, the ranking cell finds its input unbound. *)
Example top_10_cell_out_of_order :
  @cell_top_10 insertion_kernel
    (loaded sample_movie sample_ratings sample_user)
  = inl (NameError Var.filtered_avg_ratings).
Proof. reflexivity. Qed.

(** Which of two equal means comes first is up to the sort kernel: the
    contract of the sort does not settle it. *)
Remark tie_order_depends_on_kernel :
  @sort_values_desc Z insertion_kernel [(1, 4 # 1); (2, 4 # 1)]
  = [(1, 4 # 1); (2, 4 # 1)] /\
  @sort_values_desc Z reverse_kernel [(1, 4 # 1); (2, 4 # 1)]
  = [(2, 4 # 1); (1, 4 # 1)].
Proof. split; reflexivity. Qed.

(** ** The overview numbers and the aggregates *)

Lemma col_min_lower (l : list Z) (lo : Z) :
  col_min l = Some lo -> Forall (fun y => lo <= y) l.
Proof.
  destruct l as [|x t]; [discriminate|]. simpl. intros E. inversion E.
  destruct (fold_min_spec t x). now constructor.
Qed.

Lemma col_max_upper (l : list Z) (hi : Z) :
  col_max l = Some hi -> Forall (fun y => y <= hi) l.
Proof.
  destruct l as [|x t]; [discriminate|]. simpl. intros E. inversion E.
  destruct (fold_max_spec t x). now constructor.
Qed.

Lemma Forall_incl {A : Type} (P : A -> Prop) (l1 l2 : list A) :
  incl l1 l2 -> Forall P l2 -> Forall P l1.
Proof.
  rewrite !Forall_forall. intros Hin HP x Hx. apply HP, Hin, Hx.
Qed.

Lemma group_incl {R K : Type} `{Label K} (key : R -> K) (val : R -> Z)
    (rows : list R) (k : K) :
  incl (group key val rows k) (map val rows).
Proof.
  unfold group. intros v Hv. apply in_map_iff in Hv.
  destruct Hv as (r & <- & Hr). apply filter_In in Hr. apply in_map, Hr.
Qed.

Section Overview.
Context `{SortKernel}.

(** X1.  The number of unique movies printed at line 99 is the number of
    entries of [ratings_per_movie] and of [avg_rating_per_movie]; it is at
    most the number of ratings printed at line 93, and it is 0 only for an
    empty table. *)
Theorem unique_movies_agree (ratings : list Rating.row) :
  Z.of_nat (length (ratings_per_movie ratings)) = n_unique_movies ratings /\
  Z.of_nat (length (avg_rating_per_movie ratings)) = n_unique_movies ratings /\
  0 <= n_unique_movies ratings <= n_total_ratings ratings /\
  (n_unique_movies ratings = 0 <-> ratings = []).
Proof.
  unfold n_unique_movies, n_total_ratings, nunique.
  split.
  { unfold ratings_per_movie.
    rewrite <- (Permutation_length (value_counts_perm _)).
    now rewrite length_map. }
  split.
  { unfold avg_rating_per_movie, groupby_mean. rewrite length_map.
    now rewrite <- (Permutation_length (group_keys_perm _)). }
  split.
  { split; [lia|]. apply inj_le.
    rewrite <- (length_map Rating.movie_id ratings).
    apply NoDup_incl_length; [apply unique_NoDup|].
    intros m Hm. exact (proj1 (unique_In _ _) Hm). }
  split.
  - intros E. destruct ratings as [|r t]; [reflexivity|]. exfalso.
    assert (Hin : In (Rating.movie_id r)
                     (unique (map Rating.movie_id (r :: t))))
      by (apply unique_In; now left).
    destruct (unique (map Rating.movie_id (r :: t))); [contradiction|].
    simpl length in E. lia.
  - intros ->. reflexivity.
Qed.
End Overview.

(** X3.  The smallest and largest rating printed at lines 102-103 bound
    every aggregate of the script: each per-movie mean and each per-gender
    mean lies between them. *)
Theorem means_within_global_range (ratings : list Rating.row)
    (user : list User.row) (lo hi : Z) :
  min_rating ratings = Some lo ->
  max_rating ratings = Some hi ->
  (forall m mu, In (m, mu) (avg_rating_per_movie ratings) ->
                (inject_Z lo <= mu <= inject_Z hi)%Q) /\
  (forall g mu, In (g, mu) (avg_rating_by_gender ratings user) ->
                (inject_Z lo <= mu <= inject_Z hi)%Q).
Proof.
  intros Hlo Hhi. apply col_min_lower in Hlo. apply col_max_upper in Hhi.
  split.
  - intros m mu Hin. apply groupby_mean_In in Hin. destruct Hin as [Hm ->].
    apply mean_bounds; [now apply group_nonempty| |];
      eapply Forall_incl; try apply group_incl; assumption.
  - intros g mu Hin. unfold avg_rating_by_gender in Hin.
    apply groupby_mean_In in Hin. destruct Hin as [Hg ->].
    assert (Hsub : incl (map (fun kr : string * (Rating.row * User.row) =>
                                Rating.rating (fst (snd kr)))
                             (keyed (fun ru : Rating.row * User.row =>
                                       User.gender (snd ru))
                                    (ratings_users ratings user)))
                        (map Rating.rating ratings)).
    { intros v Hv. apply in_map_iff in Hv.
      destruct Hv as ([k [r u]] & <- & Hkr).
      apply keyed_In in Hkr. destruct Hkr as [Hru _].
      apply merge_In in Hru. simpl. apply in_map. tauto. }
    apply mean_bounds; [now apply group_nonempty| |];
      eapply Forall_incl; try (eapply incl_tran; [apply group_incl|exact Hsub]);
      assumption.
Qed.

Lemma means_within_global_range_witness :
  (forall m mu, In (m, mu) (avg_rating_per_movie sample_ratings) ->
                (inject_Z 3 <= mu <= inject_Z 5)%Q) /\
  (forall g mu, In (g, mu) (avg_rating_by_gender sample_ratings sample_user) ->
                (inject_Z 3 <= mu <= inject_Z 5)%Q).
Proof.
  apply (means_within_global_range sample_ratings sample_user 3 5);
    vm_compute; reflexivity.
Defined.

(** ** Order of the counts *)

(** On a Series sorted by descending value, the mask [s >= t] keeps a
    leading segment. *)
Lemma mask_ge_prefix {K : Type} (t : Z) (s : Series K Z) :
  StronglySorted (fun a b => snd b <= snd a) s ->
  mask_ge t s ++ filter (fun e => negb (t <=? snd e)) s = s.
Proof.
  unfold mask_ge. induction 1 as [|x l Hs IH Hx]; simpl; [reflexivity|].
  destruct (t <=? snd x) eqn:E; simpl.
  - now rewrite IH.
  - apply Z.leb_gt in E.
    assert (Hnone : filter (fun e => t <=? snd e) l = []).
    { clear IH Hs. induction l as [|y l IHl]; simpl; [reflexivity|].
      inversion Hx as [|? ? Hy Hl]; subst.
      destruct (t <=? snd y) eqn:F; [apply Z.leb_le in F; lia|].
      now apply IHl. }
    rewrite Hnone in IH |- *. simpl in IH |- *. now rewrite IH.
Qed.

Lemma StronglySorted_app_inv {A : Type} (R : A -> A -> Prop) (l1 l2 : list A) :
  StronglySorted R (l1 ++ l2) ->
  StronglySorted R l1 /\ StronglySorted R l2 /\
  (forall a b, In a l1 -> In b l2 -> R a b).
Proof.
  induction l1 as [|x t IH]; simpl; intros Hs.
  - split; [constructor|]. split; [exact Hs|]. intros a b [].
  - inversion Hs as [|? ? Ht Hx]; subst.
    destruct (IH Ht) as (H1 & H2 & H12).
    rewrite Forall_forall in Hx.
    split.
    + constructor; [exact H1|]. apply Forall_forall. intros y Hy.
      apply Hx, in_or_app. now left.
    + split; [exact H2|]. intros a b [<-|Ha] Hb.
      * apply Hx, in_or_app. now right.
      * now apply H12.
Qed.

Section CountOrder.
Context `{SortKernel}.

(** X4.  For every threshold, the filter of line 136 cuts the sorted
    Series [ratings_per_movie] at one point: the retained movies are its
    leading entries, in the same order, followed by the removed ones, and
    no removed movie has more ratings than a retained one. *)
Theorem filtered_movies_is_prefix (t : Z) (ratings : list Rating.row) :
  ratings_per_movie ratings
  = filtered_movies_at t ratings ++ removed_movies_at t ratings /\
  filtered_movies_at t ratings
  = firstn (length (filtered_movies_at t ratings)) (ratings_per_movie ratings) /\
  (forall a b, In a (filtered_movies_at t ratings) ->
               In b (removed_movies_at t ratings) -> snd b < snd a).
Proof.
  assert (E : filtered_movies_at t ratings ++ removed_movies_at t ratings
              = ratings_per_movie ratings)
    by (apply mask_ge_prefix, value_counts_sorted).
  split; [now symmetry|]. split.
  - rewrite <- E. rewrite firstn_app, Nat.sub_diag, firstn_all.
    simpl. now rewrite app_nil_r.
  - intros [m c] [m' c'] Ha Hb.
    apply filtered_movies_at_In in Ha. apply removed_movies_at_In in Hb.
    simpl. lia.
Qed.

(** X5.  [ratings_per_movie] lists each rated movie once with a count of
    at least 1 (a movie nobody rated has no entry, so the histogram of line
    180 has no zero), in descending order of count; the ten entries shown
    at line 114 are ten largest counts. *)
Theorem ratings_per_movie_ranked (ratings : list Rating.row) :
  NoDup (index (ratings_per_movie ratings)) /\
  (forall m, In m (index (ratings_per_movie ratings)) <->
             In m (map Rating.movie_id ratings)) /\
  Forall (fun c => 1 <= c) (values (ratings_per_movie ratings)) /\
  StronglySorted (fun a b => snd b <= snd a) (ratings_per_movie ratings) /\
  (forall a b, In a (head 10 (ratings_per_movie ratings)) ->
               In b (skipn 10 (ratings_per_movie ratings)) -> snd b <= snd a).
Proof.
  split; [apply value_counts_NoDup|].
  split; [intros m; apply value_counts_index_In|].
  split.
  { apply Forall_forall. intros c Hc. apply in_map_iff in Hc.
    destruct Hc as ([m c'] & E & Hin). simpl in E. subst c'.
    apply ratings_per_movie_In in Hin. destruct Hin as [Hm ->].
    apply count_pos in Hm. unfold n_ratings. lia. }
  split; [apply value_counts_sorted|].
  intros a b Ha Hb.
  exact (StronglySorted_firstn_skipn (fun x y => snd y <= snd x) 10 _ a b
           (value_counts_sorted _) Ha Hb).
Qed.

(** X6.  [ratings_by_occupation] has one entry per occupation of a user
    with at least one joined rating, holding the number of joined ratings of
    that occupation, which is at least 1: an occupation whose users rated
    nothing has no entry, and neither has a missing occupation.  The entries are in descending order of count, so
    the ten shown and plotted at lines 233-237 are ten largest. *)
Theorem occupation_counts_ranked (ratings : list Rating.row)
    (user : list User.row) :
  NoDup (index (ratings_by_occupation ratings user)) /\
  (forall o c, In (o, c) (ratings_by_occupation ratings user) <->
     (exists r u, In r ratings /\ In u user /\
                  User.user_id u = Rating.user_id r /\
                  User.occupation u = Some o) /\
     c = count o (dropna (map joined_occupation
                              (ratings_users ratings user)))) /\
  Forall (fun c => 1 <= c) (values (ratings_by_occupation ratings user)) /\
  StronglySorted (fun a b => snd b <= snd a)
                 (ratings_by_occupation ratings user) /\
  (forall a b, In a (head 10 (ratings_by_occupation ratings user)) ->
               In b (skipn 10 (ratings_by_occupation ratings user)) ->
               snd b <= snd a).
Proof.
  assert (Hocc : forall o,
     In o (dropna (map joined_occupation (ratings_users ratings user))) <->
     exists r u, In r ratings /\ In u user /\
                 User.user_id u = Rating.user_id r /\
                 User.occupation u = Some o).
  { intros o. rewrite dropna_In, in_map_iff. split.
    - intros ([r u] & E & Hin). apply merge_In in Hin. exists r, u. tauto.
    - intros (r & u & Hr & Hu & Hk & E). exists (r, u).
      split; [exact E|]. now apply merge_In. }
  split; [apply value_counts_NoDup|].
  split.
  { intros o c. unfold ratings_by_occupation.
    rewrite value_counts_In. fold joined_occupation. now rewrite Hocc. }
  split.
  { apply Forall_forall. intros c Hc. apply in_map_iff in Hc.
    destruct Hc as ([o c'] & E & Hin). simpl in E. subst c'.
    apply value_counts_In in Hin. destruct Hin as [Ho ->].
    apply count_pos in Ho. lia. }
  split; [apply value_counts_sorted|].
  intros a b Ha Hb.
  exact (StronglySorted_firstn_skipn (fun x y => snd y <= snd x) 10 _ a b
           (value_counts_sorted _) Ha Hb).
Qed.
End CountOrder.

(** ** Ranks *)

(** Two lists sorted by descending score, the first duplicate-free and
    contained in the second: at every rank the first list scores at most
    what the second scores. *)
Lemma sorted_sub_ranks {A : Type} (v : A -> Q) (sa sb : list A) :
  StronglySorted (fun x y => (v y <= v x)%Q) sa ->
  StronglySorted (fun x y => (v y <= v x)%Q) sb ->
  NoDup sa -> incl sa sb ->
  forall i a, nth_error sa i = Some a ->
              exists b, nth_error sb i = Some b /\ (v a <= v b)%Q.
Proof.
  intros Hsa Hsb Hnd Hin i a Ha.
  assert (Hlen : (i < length sb)%nat).
  { apply Nat.lt_le_trans with (length sa).
    - apply nth_error_Some. congruence.
    - now apply NoDup_incl_length. }
  destruct (nth_error sb i) as [b|] eqn:Hb;
    [|apply nth_error_Some in Hlen; contradiction].
  exists b. split; [reflexivity|].
  destruct (Qlt_le_dec (v b) (v a)) as [Hlt|Hle]; [exfalso|exact Hle].
  apply nth_error_split in Ha. destruct Ha as (l1 & l2 & -> & Hl1).
  apply nth_error_split in Hb. destruct Hb as (m1 & m2 & -> & Hm1).
  change (l1 ++ a :: l2) with (l1 ++ [a] ++ l2) in *.
  rewrite app_assoc in *.
  apply StronglySorted_app_inv in Hsa. destruct Hsa as (Hs1 & _ & _).
  apply StronglySorted_app_inv in Hs1. destruct Hs1 as (_ & _ & Hbefore).
  apply StronglySorted_app_inv in Hsb. destruct Hsb as (_ & Hs2 & _).
  inversion Hs2 as [|? ? _ Hafter]; subst. rewrite Forall_forall in Hafter.
  assert (Hsub : incl (l1 ++ [a]) m1).
  { intros e He.
    assert (Hae : (v a <= v e)%Q).
    { apply in_app_or in He. destruct He as [He|[<-|[]]].
      - apply (Hbefore e a He). now left.
      - apply Qle_refl. }
    assert (Heb : In e (m1 ++ b :: m2)).
    { apply Hin, in_or_app. now left. }
    apply in_app_or in Heb. destruct Heb as [Heb|[<-|Heb]]; [exact Heb| |].
    - exfalso. apply (Qlt_not_le _ _ Hlt Hae).
    - exfalso. apply (Qlt_not_le _ _ Hlt).
      apply Qle_trans with (v e); [exact Hae|now apply Hafter]. }
  apply NoDup_app_remove_r in Hnd.
  pose proof (NoDup_incl_length Hnd Hsub) as Hc.
  rewrite length_app in Hc. simpl in Hc. lia.
Qed.

Section Ranks.
Context `{SortKernel}.

(** What [head(10)] of a descending sort gives on a Series with distinct
    labels. *)
Lemma top_of_series (s : Series Z Q) :
  NoDup (index s) ->
  NoDup (index (head 10 (sort_values_desc s))) /\
  incl (head 10 (sort_values_desc s)) s /\
  (forall m mu, In (m, mu) s ->
     ~ In m (index (head 10 (sort_values_desc s))) ->
     forall e, In e (head 10 (sort_values_desc s)) -> (mu <= snd e)%Q).
Proof.
  intros Hnd. unfold head.
  pose proof (sort_values_desc_perm s) as Hp.
  assert (Hnd' : NoDup (index (sort_values_desc s))).
  { eapply Permutation_NoDup; [apply Permutation_map, Hp|exact Hnd]. }
  split.
  { unfold index in *. rewrite <- (firstn_skipn 10 (sort_values_desc s)) in Hnd'.
    rewrite map_app in Hnd'. now apply NoDup_app_remove_r in Hnd'. }
  split.
  { intros e He. apply (Permutation_in _ (Permutation_sym Hp)).
    rewrite <- (firstn_skipn 10 (sort_values_desc s)). apply in_or_app. now left. }
  intros m mu Hin Hout e He.
  apply (Permutation_in _ Hp) in Hin.
  rewrite <- (firstn_skipn 10 (sort_values_desc s)) in Hin.
  apply in_app_or in Hin. destruct Hin as [Hin|Hin].
  - exfalso. apply Hout. apply in_map_iff. now exists (m, mu).
  - exact (StronglySorted_firstn_skipn (fun x y => (snd y <= snd x)%Q) 10 _
             e (m, mu) (sort_values_desc_sorted s) He Hin).
Qed.

Lemma filtered_movies_at_NoDup (t : Z) (ratings : list Rating.row) :
  NoDup (index (filtered_movies_at t ratings)).
Proof. exact (NoDup_app_remove_r _ _ (partition_at_NoDup t ratings)). Qed.

(** The Series line 141 selects: one entry per movie with at least 50
    ratings, holding its mean. *)
Lemma filtered_avg_ratings_spec (ratings : list Rating.row) :
  exists sel,
    filtered_avg_ratings ratings = inr sel /\
    NoDup (index sel) /\
    incl sel (avg_rating_per_movie ratings) /\
    (forall m mu, In (m, mu) sel <->
       50 <= n_ratings ratings m /\ mu = mean (ratings_of ratings m)).
Proof.
  destruct (filtered_avg_ratings_at_total 50 ratings) as (sel & E & Hi & Hs).
  exists sel. split; [exact E|].
  split; [rewrite Hi; apply filtered_movies_at_NoDup|].
  split; [exact Hs|].
  assert (Hidx : forall m, In m (index sel) <-> 50 <= n_ratings ratings m).
  { intros m. rewrite Hi. unfold index. rewrite in_map_iff. split.
    - intros ([m' c] & Em & Hin). simpl in Em. subst m'.
      apply filtered_movies_at_In in Hin. destruct Hin as [Hin Hc].
      apply ratings_per_movie_In in Hin. destruct Hin as [_ ->]. exact Hc.
    - intros Hc. exists (m, n_ratings ratings m). split; [reflexivity|].
      apply filtered_movies_at_In. split; [|exact Hc].
      apply ratings_per_movie_In. split; [|reflexivity].
      apply count_pos. unfold n_ratings in Hc. lia. }
  intros m mu. split.
  - intros Hin. split.
    + apply Hidx. apply in_map_iff. now exists (m, mu).
    + apply Hs in Hin. now apply groupby_mean_In in Hin.
  - intros [Hc ->]. apply Hidx in Hc. apply in_map_iff in Hc.
    destruct Hc as ([m' mu] & Em & Hin). simpl in Em. subst m'.
    pose proof (Hs _ Hin) as Havg. apply groupby_mean_In in Havg.
    destruct Havg as [_ ->]. exact Hin.
Qed.
End Ranks.



(** ** The two rankings, end to end *)

Section Rankings.
Context `{SortKernel}.

(** X7.  [top_10_highest_rated] (line 128) has [min 10 n] entries, [n]
    the number of rated movies, no movie twice; each entry is a rated movie
    with its mean, the means are in descending order, and no rated movie
    left out has a larger mean than a listed one. *)
Theorem top_10_highest_rated_ranked (ratings : list Rating.row) :
  length (top_10_highest_rated ratings)
  = Nat.min 10 (Z.to_nat (n_unique_movies ratings)) /\
  NoDup (index (top_10_highest_rated ratings)) /\
  StronglySorted (fun a b => (snd b <= snd a)%Q)
                 (top_10_highest_rated ratings) /\
  (forall m mu, In (m, mu) (top_10_highest_rated ratings) ->
     In m (map Rating.movie_id ratings) /\
     mu = mean (ratings_of ratings m)) /\
  (forall m, In m (map Rating.movie_id ratings) ->
     ~ In m (index (top_10_highest_rated ratings)) ->
     forall e, In e (top_10_highest_rated ratings) ->
               (mean (ratings_of ratings m) <= snd e)%Q).
Proof.
  destruct (top_of_series (avg_rating_per_movie ratings)
              (avg_rating_per_movie_NoDup ratings)) as (Hnd & Hin & Hdom).
  unfold top_10_highest_rated.
  split.
  { unfold head. rewrite length_firstn.
    rewrite <- (Permutation_length (sort_values_desc_perm _)).
    unfold avg_rating_per_movie, groupby_mean. rewrite length_map.
    rewrite <- (Permutation_length (group_keys_perm _)).
    unfold n_unique_movies, nunique. now rewrite Nat2Z.id. }
  split; [exact Hnd|].
  split; [apply StronglySorted_firstn, sort_values_desc_sorted|].
  split.
  - intros m mu He. apply Hin in He. now apply groupby_mean_In in He.
  - intros m Hm Hout e He.
    apply (Hdom m (mean (ratings_of ratings m))); [|exact Hout|exact He].
    apply groupby_mean_In. now split.
Qed.

(** X8.  [top_10_movies] (line 146) lists no movie twice; every listed
    movie has at least 50 ratings and is listed with its own mean; and no
    movie with at least 50 ratings that is left out has a larger mean than
    a listed one. *)
Theorem top_10_movies_are_popular (ratings : list Rating.row) :
  exists top,
    top_10_movies ratings = inr top /\
    NoDup (index top) /\
    (forall m mu, In (m, mu) top ->
       50 <= n_ratings ratings m /\ mu = mean (ratings_of ratings m)) /\
    (forall m, 50 <= n_ratings ratings m -> ~ In m (index top) ->
       forall e, In e top -> (mean (ratings_of ratings m) <= snd e)%Q).
Proof.
  destruct (filtered_avg_ratings_spec ratings) as (sel & E & Hnd & _ & Hsel).
  destruct (top_of_series sel Hnd) as (Hnd' & Hin & Hdom).
  exists (top_10_of sel). unfold top_10_movies. rewrite E.
  split; [reflexivity|]. split; [exact Hnd'|]. split.
  - intros m mu He. apply Hsel, Hin, He.
  - intros m Hm Hout e He.
    apply (Hdom m (mean (ratings_of ratings m))); [|exact Hout|exact He].
    now apply Hsel.
Qed.

(** X9.  Rank by rank, the filtered ranking never shows a larger mean than
    the unfiltered one: the mean at position [i] of [top_10_movies] is at
    most the mean at position [i] of [top_10_highest_rated]. *)
Theorem filtering_lowers_each_rank (ratings : list Rating.row) :
  exists top,
    top_10_movies ratings = inr top /\
    forall i a, nth_error top i = Some a ->
      exists b, nth_error (top_10_highest_rated ratings) i = Some b /\
                (snd a <= snd b)%Q.
Proof.
  destruct (filtered_avg_ratings_spec ratings) as (sel & E & Hnd & Hsub & _).
  exists (top_10_of sel). unfold top_10_movies. rewrite E.
  split; [reflexivity|].
  intros i a Ha. unfold top_10_of, top_10_highest_rated, head in *.
  rewrite nth_error_firstn in Ha |- *.
  destruct (Nat.ltb i 10); [|discriminate].
  apply (sorted_sub_ranks snd (sort_values_desc sel)
           (sort_values_desc (avg_rating_per_movie ratings)));
    try apply sort_values_desc_sorted; [| |exact Ha].
  - eapply Permutation_NoDup; [apply sort_values_desc_perm|].
    now apply NoDup_map_inv in Hnd.
  - intros e He.
    apply (Permutation_in _ (sort_values_desc_perm _)), Hsub.
    now apply (Permutation_in _ (Permutation_sym (sort_values_desc_perm _))).
Qed.

(** X10.  Every row of the table shown at line 164 pairs the title of a
    row of the movie table with the mean rating of that movie, and that
    movie has at least 50 ratings; the table has no row for a ranked movie
    that the movie table does not hold. *)
Theorem displayed_titles_are_popular (ratings : list Rating.row)
    (movie : list Movie.row) :
  exists df,
    top_10_movies_df ratings movie = inr df /\
    (forall title mu, In (title, mu) (title_and_rating df) ->
       exists row, In row movie /\ Movie.movie_title row = title /\
         50 <= n_ratings ratings (Movie.movie_id row) /\
         mu = mean (ratings_of ratings (Movie.movie_id row))) /\
    (forall e, In e (map fst df) ->
               In (fst e) (map Movie.movie_id movie)).
Proof.
  destruct (filtered_avg_ratings_spec ratings) as (sel & E & Hnd & _ & Hsel).
  destruct (top_of_series sel Hnd) as (_ & Hin & _).
  exists (top_10_movies_df_of (top_10_of sel) movie).
  unfold top_10_movies_df, top_10_movies. rewrite E.
  split; [reflexivity|]. split.
  - intros title mu Hrow. unfold title_and_rating in Hrow.
    apply in_map_iff in Hrow. destruct Hrow as ([[m mu'] [m' t]] & Erow & Hdf).
    simpl in Erow. inversion Erow; subst.
    apply merge_In in Hdf. destruct Hdf as (Htop & Ht & Hk).
    simpl in Hk. subst m'.
    unfold movie_titles in Ht. apply in_map_iff in Ht.
    destruct Ht as (row & Er & Hrow). inversion Er; subst.
    exists row. split; [exact Hrow|]. split; [reflexivity|].
    apply Hsel, Hin, Htop.
  - intros e He. unfold top_10_movies_df_of, movie_titles in He.
    apply merge_left_kept in He. destruct He as [_ He].
    now rewrite map_map in He.
Qed.
End Rankings.

(** ** Joins on a unique key *)

Section UniqueKeyJoin.
Context {L R K : Type} `{Label K} (lkey : L -> K) (rkey : R -> K).

Lemma matches_unique (right : list R) (k : K) :
  NoDup (map rkey right) ->
  length (filter (fun r => label_eqb (rkey r) k) right)
  = if existsb (label_eqb k) (map rkey right) then 1%nat else 0%nat.
Proof.
  intros Hnd. apply Nat2Z.inj.
  rewrite (matches_length rkey), (count_unique_key _ _ Hnd).
  now destruct (existsb (label_eqb k) (map rkey right)).
Qed.

(** With a unique right key the join keeps the left rows that have a
    partner, once each and in their order. *)
Lemma merge_unique_left (left : list L) (right : list R) :
  NoDup (map rkey right) ->
  map fst (merge lkey rkey left right)
  = filter (fun l => existsb (label_eqb (lkey l)) (map rkey right)) left.
Proof.
  intros Hnd. unfold merge. induction left as [|l t IH]; simpl; [reflexivity|].
  rewrite map_app, IH, map_map. simpl.
  pose proof (matches_unique right (lkey l) Hnd) as Hlen.
  destruct (filter (fun r => label_eqb (rkey r) (lkey l)) right) as [|r [|r' rest]];
    destruct (existsb (label_eqb (lkey l)) (map rkey right));
    simpl in Hlen; try discriminate; reflexivity.
Qed.

Lemma filter_length_split {A : Type} (p : A -> bool) (l : list A) :
  (length (filter p l) + length (filter (fun a => negb (p a)) l))%nat
  = length l.
Proof.
  rewrite <- length_app. apply Permutation_length, filter_split_perm.
Qed.
End UniqueKeyJoin.

Section KeyedTables.
Context `{SortKernel}.

(** X11.  When user ids are unique in the user table, [ratings_users]
    (line 211) holds the ratings of known users, once each and in the order
    of the ratings table; the ratings it lacks are exactly those of unknown
    users, and when every rater is known it holds all ratings. *)
Theorem ratings_users_keeps_known_ratings (ratings : list Rating.row)
    (user : list User.row) :
  NoDup (map User.user_id user) ->
  map fst (ratings_users ratings user) = filter (known_user user) ratings /\
  (length (ratings_users ratings user)
   + length (filter (fun r => negb (known_user user r)) ratings))%nat
  = length ratings /\
  ((forall r, In r ratings -> known_user user r = true) ->
   map fst (ratings_users ratings user) = ratings).
Proof.
  intros Hnd.
  assert (E : map fst (ratings_users ratings user)
              = filter (known_user user) ratings)
    by (apply (merge_unique_left Rating.user_id User.user_id), Hnd).
  split; [exact E|]. split.
  - rewrite <- (length_map fst (ratings_users ratings user)), E.
    apply filter_length_split.
  - intros Hall. rewrite E. now apply filter_all.
Qed.

Lemma ratings_users_keeps_known_ratings_witness :
  map fst (ratings_users sample_ratings sample_user)
  = filter (known_user sample_user) sample_ratings /\
  (length (ratings_users sample_ratings sample_user)
   + length (filter (fun r => negb (known_user sample_user r)) sample_ratings))%nat
  = length sample_ratings /\
  ((forall r, In r sample_ratings -> known_user sample_user r = true) ->
   map fst (ratings_users sample_ratings sample_user) = sample_ratings).
Proof.
  apply (ratings_users_keeps_known_ratings sample_ratings sample_user).
  vm_compute. repeat constructor; simpl; intuition discriminate.
Defined.

(** X12.  When movie ids are unique in the movie table and every rated
    movie is in it, the titled table of lines 159-164 has one row per entry
    of [top_10_movies], in ranking order, each with the title of the movie
    of that id; the rating column shown is the ranking's means. *)
Theorem titled_ranking_keeps_order (ratings : list Rating.row)
    (movie : list Movie.row) :
  NoDup (map Movie.movie_id movie) ->
  incl (map Rating.movie_id ratings) (map Movie.movie_id movie) ->
  exists top df,
    top_10_movies ratings = inr top /\
    top_10_movies_df ratings movie = inr df /\
    map fst df = top /\
    map snd (title_and_rating df) = values top /\
    (forall e t, In (e, t) df ->
       exists row, In row movie /\ Movie.movie_id row = fst e /\
                   t = (Movie.movie_id row, Movie.movie_title row)).
Proof.
  intros Hnd Hfk.
  destruct (filtered_avg_ratings_spec ratings) as (sel & E & Hnds & Hsub & _).
  destruct (top_of_series sel Hnds) as (_ & Hin & _).
  exists (top_10_of sel), (top_10_movies_df_of (top_10_of sel) movie).
  unfold top_10_movies_df, top_10_movies. rewrite E.
  split; [reflexivity|]. split; [reflexivity|].
  assert (Ekeys : map fst (movie_titles movie) = map Movie.movie_id movie).
  { unfold movie_titles. now rewrite map_map. }
  assert (Efst : map fst (top_10_movies_df_of (top_10_of sel) movie)
                 = top_10_of sel).
  { unfold top_10_movies_df_of, reset_index.
    rewrite (merge_unique_left fst fst) by (now rewrite Ekeys).
    apply filter_all. intros [m mu] He.
    change (existsb (label_eqb m) (map fst (movie_titles movie)) = true).
    apply existsb_label. rewrite Ekeys. apply Hfk.
    apply Hin, Hsub in He. now apply groupby_mean_In in He. }
  split; [exact Efst|]. split.
  - unfold title_and_rating, values. rewrite map_map. simpl.
    rewrite <- Efst at 2. now rewrite map_map.
  - intros e t Hdf. apply merge_In in Hdf. destruct Hdf as (_ & Ht & Hk).
    unfold movie_titles in Ht. apply in_map_iff in Ht.
    destruct Ht as (row & <- & Hrow). simpl in Hk.
    exists row. now repeat split.
Qed.

(** X13.  [avg_rating_by_gender] (line 214) has one entry per gender of a
    user with at least one joined rating: none for a gender whose users
    rated nothing, and none for a missing gender.  Each entry is the mean of
    the joined ratings of the users of that gender and lies between the
    smallest and the largest of them. *)
Theorem gender_means_cover_join (ratings : list Rating.row)
    (user : list User.row) :
  NoDup (index (avg_rating_by_gender ratings user)) /\
  (forall g, In g (index (avg_rating_by_gender ratings user)) <->
     exists r u, In r ratings /\ In u user /\
                 User.user_id u = Rating.user_id r /\
                 User.gender u = Some g) /\
  (forall g mu, In (g, mu) (avg_rating_by_gender ratings user) ->
     mu = mean (ratings_by_gender ratings user g) /\
     exists lo hi,
       col_min (ratings_by_gender ratings user g) = Some lo /\
       col_max (ratings_by_gender ratings user g) = Some hi /\
       (inject_Z lo <= mu <= inject_Z hi)%Q).
Proof.
  assert (Egrp : forall g,
     group fst (fun kr : string * (Rating.row * User.row) =>
                  Rating.rating (fst (snd kr)))
           (keyed (fun ru : Rating.row * User.row => User.gender (snd ru))
                  (ratings_users ratings user)) g
     = ratings_by_gender ratings user g).
  { intros g.
    exact (group_keyed joined_gender
             (fun ru : Rating.row * User.row => Rating.rating (fst ru))
             (ratings_users ratings user) g). }
  unfold avg_rating_by_gender. rewrite groupby_mean_index.
  split; [apply group_keys_NoDup|]. split.
  { intros g. rewrite group_keys_In, keyed_keys. split.
    - intros ([r u] & Hin & E). apply merge_In in Hin. exists r, u. tauto.
    - intros (r & u & Hr & Hu & Hk & E). exists (r, u).
      split; [now apply merge_In|exact E]. }
  intros g mu Hin. apply groupby_mean_In in Hin. destruct Hin as [Hg ->].
  apply (group_nonempty fst (fun kr : string * (Rating.row * User.row) =>
                               Rating.rating (fst (snd kr)))) in Hg.
  rewrite Egrp in *. split; [reflexivity|].
  now apply mean_between_extremes.
Qed.
End KeyedTables.

Lemma titled_ranking_keeps_order_witness :
  exists top df,
    @top_10_movies insertion_kernel sample_ratings = inr top /\
    @top_10_movies_df insertion_kernel sample_ratings sample_movie_full
    = inr df /\
    map fst df = top /\
    map snd (title_and_rating df) = values top /\
    (forall e t, In (e, t) df ->
       exists row, In row sample_movie_full /\ Movie.movie_id row = fst e /\
                   t = (Movie.movie_id row, Movie.movie_title row)).
Proof.
  apply (@titled_ranking_keeps_order insertion_kernel
           sample_ratings sample_movie_full).
  - vm_compute. repeat constructor; simpl; intuition discriminate.
  - intros m Hm. apply existsb_label. apply existsb_label in Hm.
    revert m Hm.
    assert (Hall : forallb (fun m => existsb (label_eqb m)
                      (map Movie.movie_id sample_movie_full))
                     (map Rating.movie_id sample_ratings) = true)
      by (vm_compute; reflexivity).
    rewrite forallb_forall in Hall. intros m Hm.
    apply Hall. now apply existsb_label.
Defined.

(** ** Running the cells from any store *)

Lemma bar_plot_nonempty {K V : Type} (mk : Series K V -> value)
    (s : Series K V) :
  s <> [] -> bar_plot mk s = show (Bar (mk s)).
Proof. destruct s; [contradiction|reflexivity]. Qed.

Lemma bar_plot_empty {K V : Type} (mk : Series K V -> value)
    (s : Series K V) :
  s = [] -> bar_plot mk s = raise PlotError.
Proof. intros ->. reflexivity. Qed.

Lemma head_nonempty {A : Type} (n : nat) (l : list A) :
  l <> [] -> head (S n) l <> [].
Proof. destruct l; [contradiction|discriminate]. Qed.

Lemma head_empty {A : Type} (n : nat) (l : list A) : l = [] -> head n l = [].
Proof. intros ->. now destruct n. Qed.

Section Rerun.
Context `{SortKernel}.

Local Opaque value_counts groupby_mean mask_ge sort_values_desc merge
  getitem_labels head index values title_and_rating reset_index keyed dropna
  bar_plot.

Ltac run_cells_from Hm Hr Hu E' :=
  unfold script, cells, run_cells, cell_popularity, cell_average, cell_filter,
    cell_top_10, cell_titles, cell_join_titles, cell_title_rating,
    cell_hist_ratings, cell_hist_age, cell_gender, cell_gender_plot,
    cell_occupation, cell_occupation_plot, read_movie, read_ratings,
    read_user, read_counts, read_means, read_titles, read_ranked, read_joined,
    read_gender_means, read_occupations;
  unfold bind, read, assign, show, ret;
  cbn; repeat (first [rewrite Hr | rewrite Hm | rewrite Hu | rewrite E']; cbn).

(** X14.  From any store in which the three tables are bound, whatever
    the derived names are bound to (nothing, stale values of any kind, or
    the results of an earlier run), the cells of lines 111-241 run top to
    bottom as follows.  When [avg_rating_by_gender] and
    [ratings_by_occupation] are not empty, the run ends without an error,
    binds every name to the value computed from the three tables alone, and
    appends its fifteen outputs to what was shown before.  When one of the
    two is empty (no joined rating with a gender, or none with an
    occupation), the run stops with the error of the bar plot of an empty
    Series, at line 219 or at line 237. *)
Theorem script_from_any_store (st : State) (movie : list Movie.row)
    (ratings : list Rating.row) (user : list User.row) :
  store st Var.movie = Some (VMovie movie) ->
  store st Var.ratings = Some (VRatings ratings) ->
  store st Var.user = Some (VUser user) ->
  (avg_rating_by_gender ratings user <> [] ->
   ratings_by_occupation ratings user <> [] ->
   exists st' sel,
     script st = inr (tt, st') /\
     filtered_avg_ratings ratings = inr sel /\
     (forall x, store st' x = final_bindings movie ratings user sel x) /\
     shown st' = shown st ++ script_output movie ratings user sel) /\
  (avg_rating_by_gender ratings user = [] \/
   ratings_by_occupation ratings user = [] ->
   script st = inl PlotError).
Proof.
  intros Hm Hr Hu.
  destruct (filtered_avg_ratings_at_total 50 ratings) as (sel & E & _).
  pose proof E as E'.
  unfold filtered_avg_ratings_at, filtered_movies_at, ratings_per_movie,
    avg_rating_per_movie in E'.
  split.
  - intros Hg Ho.
    pose proof (bar_plot_nonempty VGenderMeans _ Hg) as Pg.
    pose proof (bar_plot_nonempty VOccupations _ (head_nonempty 9 _ Ho)) as Po.
    unfold avg_rating_by_gender, ratings_users in Pg.
    unfold ratings_by_occupation, ratings_users in Po.
    run_cells_from Hm Hr Hu E'.
    rewrite Pg. unfold show. cbn. rewrite Po. unfold show. cbn.
    eexists. exists sel. split; [reflexivity|].
    split; [exact E|]. split.
    + intros x. destruct x; cbn; try reflexivity; assumption.
    + cbn. repeat rewrite <- app_assoc. reflexivity.
  - intros Hempty.
    destruct (avg_rating_by_gender ratings user) as [|g gs] eqn:Hg.
    + pose proof (bar_plot_empty VGenderMeans _ Hg) as Pg.
      unfold avg_rating_by_gender, ratings_users in Pg.
      run_cells_from Hm Hr Hu E'.
      rewrite Pg. reflexivity.
    + destruct Hempty as [F|Ho]; [discriminate|].
      assert (Hg' : avg_rating_by_gender ratings user <> [])
        by (rewrite Hg; discriminate).
      pose proof (bar_plot_nonempty VGenderMeans _ Hg') as Pg.
      pose proof (bar_plot_empty VOccupations _ (head_empty 10 _ Ho)) as Po.
      unfold avg_rating_by_gender, ratings_users in Pg.
      unfold ratings_by_occupation, ratings_users in Po.
      run_cells_from Hm Hr Hu E'.
      rewrite Pg. unfold show. cbn. rewrite Po. reflexivity.
Qed.

Transparent value_counts groupby_mean mask_ge sort_values_desc merge
  getitem_labels head index values title_and_rating reset_index keyed dropna
  bar_plot.
End Rerun.

Lemma script_from_any_store_witness :
  exists st' sel,
    @script insertion_kernel stale_store = inr (tt, st') /\
    @filtered_avg_ratings insertion_kernel sample_ratings = inr sel /\
    (forall x, store st' x
               = @final_bindings insertion_kernel sample_movie sample_ratings
                   sample_user sel x) /\
    shown st'
    = shown stale_store
      ++ @script_output insertion_kernel sample_movie sample_ratings
           sample_user sel.
Proof.
  apply (proj1 (@script_from_any_store insertion_kernel stale_store
                  sample_movie sample_ratings sample_user
                  eq_refl eq_refl eq_refl));
    vm_compute; discriminate.
Defined.

(** ** The filter cell on its own *)

Lemma getitem_labels_present {K V : Type} `{Label K} (s : Series K V)
    (labels : list K) :
  incl labels (index s) ->
  getitem_labels s labels = inr (flat_map (loc_label s) labels).
Proof.
  intros Hin. unfold getitem_labels. now rewrite (missing_labels_nil s labels Hin).
Qed.

Lemma getitem_labels_absent {K V : Type} `{Label K} (s : Series K V)
    (labels : list K) (k : K) :
  In k labels -> ~ In k (index s) ->
  exists missing,
    getitem_labels s labels = inl missing /\ In k missing /\
    forall k', In k' missing -> ~ In k' (index s).
Proof.
  intros Hk Hn. unfold getitem_labels.
  assert (Hm : In k (missing_labels s labels)) by now apply missing_labels_In.
  assert (Hall : forall k', In k' (missing_labels s labels) ->
                            ~ In k' (index s))
    by (intros k' Hk'; now apply missing_labels_In in Hk').
  destruct (missing_labels s labels) as [|x t]; [contradiction|].
  now exists (x :: t).
Qed.

Lemma mask_ge_index_In {K : Type} (t : Z) (s : Series K Z) (k : K) (c : Z) :
  In (k, c) s -> t <= c -> In k (index (mask_ge t s)).
Proof.
  intros Hin Hc. unfold index, mask_ge. apply in_map_iff.
  exists (k, c). split; [reflexivity|].
  apply filter_In. split; [exact Hin|]. now apply Z.leb_le.
Qed.

Section FilterCell.

Local Opaque mask_ge getitem_labels index.

(** X15.  The filter cell (lines 134-142) run on a store whose counts and
    means are bound: when every movie with at least 50 ratings in the
    counts is a label of the means, the cell ends and binds
    [filtered_avg_ratings]; when some such movie is not a label of the
    means (the two Series come from different tables), the cell stops with
    [KeyError], which names that movie and only labels the means lack. *)
Theorem cell_filter_lookup (st : State) (counts : Series Z Z)
    (means : Series Z Q) :
  store st Var.ratings_per_movie = Some (VCounts counts) ->
  store st Var.avg_rating_per_movie = Some (VMeans means) ->
  (incl (index (mask_ge 50 counts)) (index means) ->
   exists st' sel,
     cell_filter st = inr (tt, st') /\
     getitem_labels means (index (mask_ge 50 counts)) = inr sel /\
     store st' Var.filtered_movies = Some (VCounts (mask_ge 50 counts)) /\
     store st' Var.filtered_avg_ratings = Some (VMeans sel)) /\
  (forall m c, In (m, c) counts -> 50 <= c -> ~ In m (index means) ->
   exists missing,
     cell_filter st = inl (KeyError missing) /\ In m missing /\
     forall k, In k missing -> ~ In k (index means)).
Proof.
  intros Hc Ha. split.
  - intros Hin. pose proof (getitem_labels_present means _ Hin) as E.
    unfold cell_filter, read_counts, read_means, bind, read, assign, show, ret.
    cbn. rewrite Hc. cbn. rewrite Ha. cbn. rewrite E. cbn.
    eexists. eexists. repeat split.
  - intros m c Hmc Hge Hout.
    destruct (getitem_labels_absent means (index (mask_ge 50 counts)) m
                (mask_ge_index_In 50 counts m c Hmc Hge) Hout)
      as (missing & E & Hm & Hall).
    exists missing.
    unfold cell_filter, read_counts, read_means, bind, read, assign, show, ret.
    cbn. rewrite Hc. cbn. rewrite Ha. cbn. rewrite E. cbn.
    repeat split; assumption.
Qed.

Transparent mask_ge getitem_labels index.
End FilterCell.

Lemma cell_filter_lookup_witness :
  exists missing,
    cell_filter mismatched_store = inl (KeyError missing) /\ In 7 missing /\
    forall k, In k missing -> ~ In k (index [(8, 5 # 1); (9, 3 # 1)]).
Proof.
  apply (proj2 (cell_filter_lookup mismatched_store [(7, 50); (8, 2)]
                  [(8, 5 # 1); (9, 3 # 1)] eq_refl eq_refl) 7 50).
  - now left.
  - lia.
  - simpl. intros [F|[F|[]]]; discriminate.
Defined.

(** ** Small tables *)

Lemma count_le_length {K : Type} `{Label K} (k : K) (col : list K) :
  count k col <= Z.of_nat (length col).
Proof. unfold count. apply inj_le, filter_length_le. Qed.

Lemma filter_none {A : Type} (p : A -> bool) (l : list A) :
  (forall a, In a l -> p a = false) -> filter p l = [].
Proof.
  induction l as [|a t IH]; intros Hp; simpl; [reflexivity|].
  rewrite (Hp a) by now left. apply IH. intros b Hb. apply Hp. now right.
Qed.

Section SmallTables.
Context `{SortKernel}.

(** X16.  A ratings table with fewer than 50 rows has no movie that
    passes the filter: [filtered_movies], [top_10_movies] and the titled
    table are empty (and no error is raised), while the unfiltered ranking
    [top_10_highest_rated] is not empty as soon as the table has a row. *)
Theorem small_table_has_no_ranking (ratings : list Rating.row)
    (movie : list Movie.row) :
  (length ratings < 50)%nat ->
  filtered_movies ratings = [] /\
  top_10_movies ratings = inr [] /\
  top_10_movies_df ratings movie = inr [] /\
  (ratings <> [] -> top_10_highest_rated ratings <> []).
Proof.
  intros Hsmall.
  assert (Ef : filtered_movies ratings = []).
  { unfold filtered_movies, filtered_movies_at, mask_ge.
    apply filter_none. intros [m c] Hin. simpl.
    apply ratings_per_movie_In in Hin. destruct Hin as [_ ->].
    apply Z.leb_gt. unfold n_ratings.
    pose proof (count_le_length m (map Rating.movie_id ratings)) as Hle.
    rewrite length_map in Hle. lia. }
  assert (Et : top_10_movies ratings = inr []).
  { destruct (filtered_avg_ratings_at_total 50 ratings) as (sel & E & Hi & _).
    unfold top_10_movies, filtered_avg_ratings. rewrite E.
    change (filtered_movies_at 50) with filtered_movies in Hi.
    rewrite Ef in Hi. destruct sel; [|discriminate].
    unfold top_10_of, sort_values_desc.
    now rewrite (Permutation_nil (sort_by_perm _ _ [])). }
  split; [exact Ef|]. split; [exact Et|]. split.
  - unfold top_10_movies_df. now rewrite Et.
  - intros Hne Ht. apply (f_equal (@length _)) in Ht.
    unfold top_10_highest_rated, head in Ht. rewrite length_firstn in Ht.
    rewrite <- (Permutation_length (sort_values_desc_perm _)) in Ht.
    unfold avg_rating_per_movie, groupby_mean in Ht. rewrite length_map in Ht.
    rewrite <- (Permutation_length (group_keys_perm _)) in Ht.
    destruct ratings as [|r t]; [contradiction|].
    assert (Hin : In (Rating.movie_id r)
                     (unique (map Rating.movie_id (r :: t))))
      by (apply unique_In; now left).
    destruct (unique (map Rating.movie_id (r :: t))); [contradiction|].
    simpl in Ht. lia.
Qed.
End SmallTables.

Lemma small_table_has_no_ranking_witness :
  @filtered_movies insertion_kernel (fixture 1 2 3 1) = [] /\
  @top_10_movies insertion_kernel (fixture 1 2 3 1) = inr [] /\
  @top_10_movies_df insertion_kernel (fixture 1 2 3 1) sample_movie = inr [] /\
  (fixture 1 2 3 1 <> [] ->
   @top_10_highest_rated insertion_kernel (fixture 1 2 3 1) <> []).
Proof.
  apply (@small_table_has_no_ranking insertion_kernel (fixture 1 2 3 1)
           sample_movie).
  simpl. lia.
Defined.

(** ** Independence of the row order *)

Lemma count_perm {K : Type} `{Label K} (k : K) (c1 c2 : list K) :
  Permutation c1 c2 -> count k c1 = count k c2.
Proof.
  intros Hp. unfold count. f_equal.
  apply Permutation_length, filter_perm, Hp.
Qed.

Lemma unique_perm {K : Type} `{Label K} (c1 c2 : list K) :
  Permutation c1 c2 -> Permutation (unique c1) (unique c2).
Proof.
  intros Hp. apply NoDup_Permutation; try apply unique_NoDup.
  intros k. rewrite !unique_In. split; apply Permutation_in;
    [exact Hp|now symmetry].
Qed.

(** A duplicate-free list of integers has one ascending arrangement. *)
Lemma sorted_perm_eq (l1 l2 : list Z) :
  StronglySorted Z.le l1 -> StronglySorted Z.le l2 ->
  Permutation l1 l2 -> l1 = l2.
Proof.
  intros H1. revert l2. induction H1 as [|x t Ht IH Hx]; intros l2 H2 Hp.
  - apply Permutation_nil in Hp. now subst.
  - destruct H2 as [|y u Hu Hy].
    + symmetry in Hp. apply Permutation_nil in Hp. discriminate.
    + rewrite Forall_forall in Hx, Hy.
      assert (Exy : x = y).
      { assert (Hxin : In x (y :: u))
          by (apply (Permutation_in _ Hp); now left).
        assert (Hyin : In y (x :: t))
          by (apply (Permutation_in _ (Permutation_sym Hp)); now left).
        destruct Hxin as [E|Hxu]; [now symmetry|].
        destruct Hyin as [E|Hyt]; [exact E|].
        pose proof (Hx _ Hyt). pose proof (Hy _ Hxu). lia. }
      subst y. f_equal. apply IH; [exact Hu|].
      now apply Permutation_cons_inv in Hp.
Qed.

Lemma group_keys_Z_sorted (col : list Z) :
  StronglySorted Z.le (group_keys col).
Proof.
  unfold group_keys. eapply StronglySorted_weaken.
  2:{ apply (insertion_sort_sorted (A:=Z) Z.leb).
      - intros x y. rewrite !Z.leb_le. lia.
      - intros x y z. rewrite !Z.leb_le. lia. }
  intros x y. apply Z.leb_le.
Qed.

Lemma group_keys_Z_perm (c1 c2 : list Z) :
  Permutation c1 c2 -> group_keys c1 = group_keys c2.
Proof.
  intros Hp. apply sorted_perm_eq; try apply group_keys_Z_sorted.
  rewrite <- !group_keys_perm. now apply unique_perm.
Qed.

Lemma mean_perm (l1 l2 : list Z) : Permutation l1 l2 -> mean l1 = mean l2.
Proof.
  intros Hp. unfold mean.
  now rewrite (total_perm _ _ Hp), (Permutation_length Hp).
Qed.

Lemma fold_min_In (t : list Z) (x : Z) : In (fold_left Z.min t x) (x :: t).
Proof.
  revert x. induction t as [|z t IH]; intros x; simpl; [now left|].
  destruct (IH (Z.min x z)) as [E|Hin]; [|now right; right].
  rewrite <- E. destruct (Z.min_spec x z) as [[_ ->]|[_ ->]];
    [now left|now right; left].
Qed.

Lemma fold_max_In (t : list Z) (x : Z) : In (fold_left Z.max t x) (x :: t).
Proof.
  revert x. induction t as [|z t IH]; intros x; simpl; [now left|].
  destruct (IH (Z.max x z)) as [E|Hin]; [|now right; right].
  rewrite <- E. destruct (Z.max_spec x z) as [[_ ->]|[_ ->]];
    [now right; left|now left].
Qed.

Lemma col_min_perm (l1 l2 : list Z) :
  Permutation l1 l2 -> col_min l1 = col_min l2.
Proof.
  intros Hp. destruct l1 as [|x t], l2 as [|y u];
    [reflexivity
    |apply Permutation_nil in Hp; discriminate
    |symmetry in Hp; apply Permutation_nil in Hp; discriminate|].
  simpl. f_equal.
  destruct (fold_min_spec t x) as [Hx Ht], (fold_min_spec u y) as [Hy Hu].
  assert (A1 : Forall (fun z => fold_left Z.min t x <= z) (y :: u))
    by (eapply Permutation_Forall; [exact Hp|now constructor]).
  assert (A2 : Forall (fun z => fold_left Z.min u y <= z) (x :: t))
    by (eapply Permutation_Forall; [symmetry; exact Hp|now constructor]).
  rewrite Forall_forall in A1, A2.
  pose proof (A1 _ (fold_min_In u y)).
  pose proof (A2 _ (fold_min_In t x)). lia.
Qed.

Lemma col_max_perm (l1 l2 : list Z) :
  Permutation l1 l2 -> col_max l1 = col_max l2.
Proof.
  intros Hp. destruct l1 as [|x t], l2 as [|y u];
    [reflexivity
    |apply Permutation_nil in Hp; discriminate
    |symmetry in Hp; apply Permutation_nil in Hp; discriminate|].
  simpl. f_equal.
  destruct (fold_max_spec t x) as [Hx Ht], (fold_max_spec u y) as [Hy Hu].
  assert (A1 : Forall (fun z => z <= fold_left Z.max t x) (y :: u))
    by (eapply Permutation_Forall; [exact Hp|now constructor]).
  assert (A2 : Forall (fun z => z <= fold_left Z.max u y) (x :: t))
    by (eapply Permutation_Forall; [symmetry; exact Hp|now constructor]).
  rewrite Forall_forall in A1, A2.
  pose proof (A1 _ (fold_max_In u y)).
  pose proof (A2 _ (fold_max_In t x)). lia.
Qed.

Section RowOrder.
Context `{SortKernel}.

(** X17.  The aggregates do not depend on the order of the rows of the
    ratings table: reordering the rows leaves [avg_rating_per_movie] as it
    is, entry by entry, and leaves [ratings_per_movie] and
    [filtered_movies] with the same entries (their order among equal
    counts is up to the sort). *)
Theorem aggregates_ignore_row_order (r1 r2 : list Rating.row) :
  Permutation r1 r2 ->
  avg_rating_per_movie r1 = avg_rating_per_movie r2 /\
  Permutation (ratings_per_movie r1) (ratings_per_movie r2) /\
  Permutation (filtered_movies r1) (filtered_movies r2) /\
  n_unique_movies r1 = n_unique_movies r2 /\
  min_rating r1 = min_rating r2 /\
  max_rating r1 = max_rating r2.
Proof.
  intros Hp.
  pose proof (Permutation_map Rating.movie_id Hp) as Hid.
  assert (Hrpm : Permutation (ratings_per_movie r1) (ratings_per_movie r2)).
  { unfold ratings_per_movie.
    rewrite <- !value_counts_perm.
    rewrite (map_ext (fun k => (k, count k (map Rating.movie_id r1)))
                     (fun k => (k, count k (map Rating.movie_id r2))))
      by (intros k; now rewrite (count_perm k _ _ Hid)).
    apply Permutation_map, unique_perm, Hid. }
  split.
  { unfold avg_rating_per_movie, groupby_mean.
    rewrite (group_keys_Z_perm _ _ Hid). apply map_ext. intros m.
    f_equal. apply mean_perm. unfold group.
    apply Permutation_map, filter_perm, Hp. }
  split; [exact Hrpm|]. split.
  { unfold filtered_movies, filtered_movies_at, mask_ge.
    now apply filter_perm. }
  split.
  { unfold n_unique_movies, nunique. f_equal.
    apply Permutation_length, unique_perm, Hid. }
  pose proof (Permutation_map Rating.rating Hp) as Hr.
  unfold min_rating, max_rating.
  split; [now apply col_min_perm|now apply col_max_perm].
Qed.
End RowOrder.

Lemma aggregates_ignore_row_order_witness :
  avg_rating_per_movie (rev (fixture 1 2 3 1))
  = avg_rating_per_movie (fixture 1 2 3 1) /\
  Permutation (@ratings_per_movie insertion_kernel (rev (fixture 1 2 3 1)))
              (@ratings_per_movie insertion_kernel (fixture 1 2 3 1)) /\
  Permutation (@filtered_movies insertion_kernel (rev (fixture 1 2 3 1)))
              (@filtered_movies insertion_kernel (fixture 1 2 3 1)) /\
  n_unique_movies (rev (fixture 1 2 3 1)) = n_unique_movies (fixture 1 2 3 1) /\
  min_rating (rev (fixture 1 2 3 1)) = min_rating (fixture 1 2 3 1) /\
  max_rating (rev (fixture 1 2 3 1)) = max_rating (fixture 1 2 3 1).
Proof.
  apply (@aggregates_ignore_row_order insertion_kernel
           (rev (fixture 1 2 3 1)) (fixture 1 2 3 1)).
  simpl. symmetry. apply (Permutation_rev (fixture 1 2 3 1)).
Defined.
